(** * Wiki_Scraper: classification, pagination and bucketed export

    A shallow embedding of [src/wiki_scraper.py], [src/models.py] and
    [src/exporters.py].  Python [str] values are Rocq strings, [dict]s
    with string keys are [gmap string _], the [set] of discovered links
    is a [gset string], and a [pathlib.Path] is the list of its parts.
    The HTTP session and the markup parser are collaborators: a response
    carries the two regions of the parsed page the scraper looks at. *)

From Stdlib Require Import String Ascii List ZArith Lia Bool.
From stdpp Require Import base option list strings gmap.

Open Scope string_scope.
Open Scope list_scope.

(** ** Python string operations used by the scraper *)

Module Str.

  (** [c.lower()] on one character: only [A]..[Z] have a lower-case
      form in the 8-bit model. *)
Definition lower_ascii (c : ascii) : ascii :=
    let n := nat_of_ascii c in
    if (65 <=? n)%nat && (n <=? 90)%nat then ascii_of_nat (n + 32) else c.

  (** [s.lower()] *)
Fixpoint lower (s : string) : string :=
    match s with
    | EmptyString => EmptyString
    | String c s' => String (lower_ascii c) (lower s')
    end.

  (** [s.startswith(p)] *)
Fixpoint startswith (s p : string) {struct p} : bool :=
    match p, s with
    | EmptyString, _ => true
    | String _ _, EmptyString => false
    | String a p', String b s' => Ascii.eqb a b && startswith s' p'
    end.

  (** [t in s] for two strings: [t] occurs in [s] at some offset. *)
Fixpoint contains (t s : string) : bool :=
    startswith s t ||
    match s with
    | EmptyString => false
    | String _ s' => contains t s'
    end.

  (** [any(t in s for t in ts)] *)
Definition any_in (ts : list string) (s : string) : bool :=
    existsb (fun t => contains t s) ts.

  (** [s.replace(a, b)] for one-character [a] and [b]. *)
Fixpoint replace (a b : ascii) (s : string) : string :=
    match s with
    | EmptyString => EmptyString
    | String c s' => String (if Ascii.eqb c a then b else c) (replace a b s')
    end.

  (** [s.split(sep)] for a one-character separator: never empty. *)
Fixpoint split (sep : ascii) (s : string) : list string :=
    match s with
    | EmptyString => [EmptyString]
    | String c s' =>
        if Ascii.eqb c sep then EmptyString :: split sep s'
        else match split sep s' with
             | h :: t => String c h :: t
             | [] => [String c EmptyString]
             end
    end.

  (** The characters [str.strip()] removes in the 8-bit model. *)
Definition is_space (c : ascii) : bool :=
    let n := nat_of_ascii c in
    ((9 <=? n)%nat && (n <=? 13)%nat) || ((28 <=? n)%nat && (n <=? 32)%nat).

Fixpoint lstrip (s : string) : string :=
    match s with
    | EmptyString => EmptyString
    | String c s' => if is_space c then lstrip s' else s
    end.

Fixpoint rstrip (s : string) : string :=
    match s with
    | EmptyString => EmptyString
    | String c s' =>
        match rstrip s' with
        | EmptyString => if is_space c then EmptyString else String c EmptyString
        | r => String c r
        end
    end.

  (** [s.strip()] *)
Definition strip (s : string) : string := rstrip (lstrip s).

  (** The specification of [in]: [t] is a substring of [s]. *)
Definition substring_of (t s : string) : Prop :=
    exists pre post, s = pre +:+ t +:+ post.

  (** The last character of [s] is [c]. *)
Definition endswith_char (s : string) (c : ascii) : Prop :=
    exists pre, s = pre +:+ String c EmptyString.

End Str.

(** ** Exceptions and the [csv.DictWriter] protocol *)

Inductive exn : Type :=
| ConnectionError            (* raised by the HTTP session *)
| ValueError                 (* DictWriter: dict contains fields not in fieldnames *)
| IndexError.                (* list index out of range *)

Inductive result (A : Type) : Type :=
| Ok (a : A)
| Raise (e : exn).
Arguments Ok {A} a.
Arguments Raise {A} e.

Definition bind {A B : Type} (r : result A) (k : A -> result B) : result B :=
  match r with
  | Ok a => k a
  | Raise e => Raise e
  end.

(** [try: r except Exception as e: h e] *)
Definition try_except {A : Type} (r : result A) (h : exn -> result A) : result A :=
  match r with
  | Ok a => Ok a
  | Raise e => h e
  end.

Notation "'let!' x ':=' r 'in' k" := (bind r (fun x => k))
  (at level 10, x name, r at level 100, k at level 200).

(** A path is the list of its parts; [p / name] appends one part. *)
Definition Path : Type := list string.
Definition row : Type := list string.
(** The output area: the rows of every file that exists. *)
Abbreviation FS := (gmap (list string) (list (list string))).

(** What [to_dict] and [__class__.FIELDS] give for an item object. *)
Class Exportable (I : Type) : Type := {
  class_FIELDS : I -> list string;
  to_dict : I -> gmap string string
}.

Module Csv.

  (** [rowdict.keys() - fieldnames] *)
Definition wrong_fields (fieldnames : list string) (rowdict : gmap string string)
    : list string :=
    filter (fun k => k ∉ fieldnames) (elements (dom rowdict)).

  (** [DictWriter._dict_to_list] with the defaults [restval=''] and
      [extrasaction='raise']. *)
Definition dict_to_list (fieldnames : list string) (rowdict : gmap string string)
    : result row :=
    match wrong_fields fieldnames rowdict with
    | [] => Ok (map (fun k => default "" (rowdict !! k)) fieldnames)
    | _ :: _ => Raise ValueError
    end.

  (** [writer.writeheader()]: the field names as a row. *)
Definition header (fieldnames : list string) : row := fieldnames.

End Csv.

(** ** models.py *)

Module Models.

Inductive item_class : Type := Weapon | Equipment.

Record Item : Type := mkItem {
    cls : item_class;
    name : string;
    attributes : gmap string string
  }.

Definition Weapon_FIELDS : list string :=
    ["Name"; "Type"; "Damage"; "Delay"; "Stats"; "Classes"; "Races"; "Effect";
     "WT"; "Size"; "Slot"; "Magic Item"; "Lore Item"; "No Drop";
     "30d Avg"; "90d Avg"; "All Time Avg"].

Definition Equipment_FIELDS : list string :=
    ["Name"; "Type"; "Slot"; "AC"; "Stats"; "Classes"; "Races"; "Effect";
     "WT"; "Size"; "Magic Item"; "Lore Item"; "No Drop";
     "30d Avg"; "90d Avg"; "All Time Avg"].

Definition FIELDS (c : item_class) : list string :=
    match c with
    | Weapon => Weapon_FIELDS
    | Equipment => Equipment_FIELDS
    end.

  (** [{"Name": self.name, **self.attributes}]: a ["Name"] attribute
      overrides the name. *)
Definition Item_to_dict (item : Item) : gmap string string :=
    attributes item ∪ {["Name" := name item]}.

#[export] Instance Item_exportable : Exportable Item :=
    {| class_FIELDS := fun item => FIELDS (cls item); to_dict := Item_to_dict |}.

End Models.

(** ** exporters.py *)

Module Exporters.

Section CSVExporter.
Context {I : Type} `{Exportable I}.

    (** [CSVExporter.export_item]: open in append mode, write the header
        when the file is empty, then one row. *)
Definition export_item (base_path : Path) (fs : FS) (item : I) (filename : string)
      : result unit * FS :=
      let filepath := base_path ++ [filename] in
      let existing := default [] (fs !! filepath) in
      let fieldnames := class_FIELDS item in
      let with_header :=
        match existing with
        | [] => [Csv.header fieldnames]
        | _ :: _ => existing
        end in
      match Csv.dict_to_list fieldnames (to_dict item) with
      | Ok r => (Ok tt, <[filepath := with_header ++ [r]]> fs)
      | Raise e => (Raise e, <[filepath := with_header]> fs)
      end.
End CSVExporter.

End Exporters.


(** ** wiki_scraper.py *)

(** The parsed page, as far as the scraper looks at it: the anchors with
    an [href] inside [div#mw-content-text] (href, text), and the rows of
    [div.infobox], each the texts of its [td] cells. *)
Record Soup : Type := mkSoup {
  mw_content_text : option (list (string * string));
  infobox : option (list (list string))
}.

Record Response : Type := mkResponse {
  status_code : Z;
  content : Soup
}.

Module WikiScraper.

(** [ItemCategories.WEAPONS], in the order the dict is written. *)
Definition WEAPONS : list (string * string) :=
  [("1h", "1H_Weapons"); ("2h", "2H_Weapons"); ("piercing", "Piercing");
   ("blunt", "Blunt"); ("slashing", "Slashing"); ("bow", "Bows");
   ("throwing", "Throwing")].

(** [ItemCategories.EQUIPMENT] *)
Definition EQUIPMENT : gmap string string :=
  list_to_map
    [("arms", "Arms"); ("back", "Back"); ("chest", "Chest"); ("ear", "Ears");
     ("face", "Face"); ("feet", "Feet"); ("fingers", "Fingers");
     ("hands", "Hands"); ("head", "Head"); ("legs", "Legs"); ("neck", "Neck");
     ("shield", "Shields"); ("shoulders", "Shoulders"); ("waist", "Waist");
     ("wrist", "Wrist")].

Inductive item_class : Type := Weapon | Equipment.

Record Item : Type := mkItem {
  cls : item_class;
  name : string;
  attributes : gmap string string
}.

Definition Weapon_FIELDS : list string :=
  ["Name"; "Type"; "Damage"; "Delay"; "Classes"; "Races";
   "Skill"; "Effect"; "WT"; "Size"; "Magic Item";
   "Lore Item"; "No Drop"; "30d Avg"; "90d Avg"; "All Time Avg"].

Definition Equipment_FIELDS : list string :=
  ["Name"; "Type"; "AC"; "Stats"; "Classes"; "Races";
   "Effect"; "WT"; "Size"; "Magic Item"; "Lore Item";
   "No Drop"; "30d Avg"; "90d Avg"; "All Time Avg"].

Definition FIELDS (c : item_class) : list string :=
  match c with
  | Weapon => Weapon_FIELDS
  | Equipment => Equipment_FIELDS
  end.

(** [Item.to_dict] *)
Definition Item_to_dict (item : Item) : gmap string string :=
  attributes item ∪ {["Name" := name item]}.

#[export] Instance Item_exportable : Exportable Item :=
  {| class_FIELDS := fun item => FIELDS (cls item); to_dict := Item_to_dict |}.

(** [ItemScraper._get_category_path] *)
Definition _get_category_path (output_dir : Path) (item : Item) : Path :=
  match cls item with
  | Weapon =>
      let base_dir := output_dir ++ ["weapons"] in
      let type_key := Str.lower (default "" (attributes item !! "Type")) in
      let filename :=
        default "misc"
          (snd <$> List.find (fun kv => Str.contains (fst kv) type_key) WEAPONS) in
      base_dir ++ [filename +:+ ".csv"]
  | Equipment =>
      let base_dir := output_dir ++ ["equipment"] in
      let slot := Str.lower (default "" (attributes item !! "Slot")) in
      let filename := default "misc" (EQUIPMENT !! slot) in
      base_dir ++ [filename +:+ ".csv"]
  end.

(** The grouping loop of [_export_items]: [categorized] keeps the order
    in which destination files were first seen. *)
Fixpoint categorize_add (filepath : Path) (item : Item)
    (categorized : list (Path * list Item)) : list (Path * list Item) :=
  match categorized with
  | [] => [(filepath, [item])]
  | (p, category_items) :: rest =>
      if decide (p = filepath) then (p, category_items ++ [item]) :: rest
      else (p, category_items) :: categorize_add filepath item rest
  end.

Definition categorize (output_dir : Path) (items : list Item)
    : list (Path * list Item) :=
  foldl (fun categorized item =>
           categorize_add (_get_category_path output_dir item) item categorized)
        [] items.

(** [for item in category_items: writer.writerow(item.to_dict())], the
    rows written so far in [written]. *)
Fixpoint write_rows (fields : list string) (category_items : list Item)
    (written : list row) : result unit * list row :=
  match category_items with
  | [] => (Ok tt, written)
  | item :: rest =>
      match Csv.dict_to_list fields (to_dict item) with
      | Ok r => write_rows fields rest (written ++ [r])
      | Raise e => (Raise e, written)
      end
  end.

(** One turn of the export loop: the file is opened with mode ['w'],
    which empties it, and is closed whether or not a row raises. *)
Definition export_category (fs : FS) (filepath : Path) (category_items : list Item)
    : result unit * FS :=
  match category_items with
  | [] => (Raise IndexError, fs)
  | first :: _ =>
      let fields :=
        match cls first with
        | Weapon => Weapon_FIELDS
        | Equipment => Equipment_FIELDS
        end in
      let '(r, rows) := write_rows fields category_items [Csv.header fields] in
      (r, <[filepath := rows]> fs)
  end.

Fixpoint export_categories (fs : FS) (categorized : list (Path * list Item))
    : result unit * FS :=
  match categorized with
  | [] => (Ok tt, fs)
  | (filepath, category_items) :: rest =>
      match export_category fs filepath category_items with
      | (Ok _, fs') => export_categories fs' rest
      | (Raise e, fs') => (Raise e, fs')
      end
  end.

(** [ItemScraper._export_items] *)
Definition _export_items (output_dir : Path) (fs : FS) (items : list Item)
    : result unit * FS :=
  export_categories fs (categorize output_dir items).

(** The row [DictWriter] writes for an item that has no field outside
    [fields]: the item's value for each field, [""] where it has none. *)
Definition row_of (fields : list string) (item : Item) : row :=
  map (fun k => default "" (to_dict item !! k)) fields.

(** An item all of whose keys are columns of its class's schema. *)
Definition conforming (item : Item) : Prop :=
  forall k, is_Some (to_dict item !! k) -> k ∈ FIELDS (cls item).

(** The group recorded for [filepath] in [categorized], if any. *)
Fixpoint group_of (filepath : Path) (categorized : list (Path * list Item))
    : option (list Item) :=
  match categorized with
  | [] => None
  | (p, category_items) :: rest =>
      if decide (p = filepath) then Some category_items else group_of filepath rest
  end.

(** The number of data rows (all rows but the header) in the files at
    the given paths. *)
Definition data_rows (fs : FS) (paths : list Path) : nat :=
  sum_list (map (fun p => pred (length (default [] (fs !! p)))) paths).

(** [ItemScraper._parse_item_data] *)
Definition _parse_item_data (soup : Soup) : option (gmap string string) :=
  match infobox soup with
  | None => None
  | Some rows =>
      Some (foldl (fun data cols =>
                     match cols with
                     | [k; v] => <[Str.strip k := Str.strip v]> data
                     | _ => data
                     end) ∅ rows)
  end.

(** What one infobox row says about the label [key]: the trimmed second
    cell when the row has exactly two cells and the trimmed first cell is
    [key]. *)
Definition row_value (key : string) (cols : list string) : option string :=
  match cols with
  | [k; v] => if decide (Str.strip k = key) then Some (Str.strip v) else None
  | _ => None
  end.

Definition weapon_types : list string :=
  ["1h"; "2h"; "bow"; "throwing"; "piercing"; "blunt"; "slashing"].

(** [ItemScraper._determine_item_type] *)
Definition _determine_item_type (item_data : gmap string string) : string :=
  if decide (item_data = ∅) then "equipment"
  else
    let item_type := Str.lower (default "" (item_data !! "Type")) in
    if Str.any_in weapon_types item_type then "weapon" else "equipment".

(** [Weapon(name) if item_type == "weapon" else Equipment(name)], then
    [item.attributes = item_data]. *)
Definition build_item (item_type name : string) (item_data : gmap string string)
    : Item :=
  mkItem (if String.eqb item_type "weapon" then Weapon else Equipment) name item_data.

(** [xs[-1]] *)
Definition last_item_of {A : Type} (xs : list A) : result A :=
  match last xs with
  | Some x => Ok x
  | None => Raise IndexError
  end.

(** The markers of the links [_extract_category_items] skips. *)
Definition namespace_markers : list string :=
  ["/Category:"; "Special:"; "File:"; "Discussion:";
   "Help:"; "User:"; "Template:"; "Project:"].

(** A link the scan goes on with: no namespace marker and a
    site-relative path. *)
Definition eligible (href : string) : bool :=
  negb (Str.any_in namespace_markers href) && Str.startswith href "/".

(** Truth value of an optional string: [None] and [""] are false. *)
Definition truthy (s : option string) : bool :=
  match s with
  | None => false
  | Some EmptyString => false
  | Some (String _ _) => true
  end.

(** The body of [for item in items] in [_extract_category_items], on the
    triple [(links, found_items, last_item_this_page)]. *)
Definition scan_item (base_url : string)
    (st : gset string * bool * option string) (item : string * string)
    : gset string * bool * option string :=
  let '(links, found_items, last_item_this_page) := st in
  let href := fst item in
  if Str.any_in namespace_markers href then st
  else if Str.startswith href "/" then
    let full_url := base_url +:+ href in
    if decide (full_url ∈ links) then st
    else ({[full_url]} ∪ links, true, Some (snd item))
  else st.

Definition scan_items (base_url : string) (links : gset string)
    (items : list (string * string)) : gset string * bool * option string :=
  foldl (scan_item base_url) (links, false, None) items.

(** The URL of the next listing request. *)
Definition page_url (category_url : string) (last_item : option string) : string :=
  if truthy last_item then category_url +:+ "?pagefrom=" +:+ default "" last_item
  else category_url.

(** How one turn of [while True] ends. *)
Inductive turn : Type :=
| Break (links : gset string)
| Again (links : gset string) (last_item : option string)
| Raised (e : exn).

(** The state of an [ItemScraper] run: the transport, the list
    [self.failed_items] and the output area. *)
Record Scraper (World : Type) : Type := mkScraper {
  world : World;
  failed_items : list string;
  files : FS
}.
Arguments mkScraper {World} _ _ _.
Arguments world {World} _.
Arguments failed_items {World} _.
Arguments files {World} _.

Section Crawl.

(** [session.get]: the transport answers a URL with a response or raises,
    and moves to its next state. *)
Variable World : Type.
Variable session_get : World -> string -> result Response * World.
Variable base_url : string.
Variable output_dir : Path.

(** One turn of the [while True] loop of [_extract_category_items]. *)
Definition fetch_listing (w : World) (category_url : string)
    (links : gset string) (last_item : option string) : turn * World :=
  match session_get w (page_url category_url last_item) with
  | (Raise e, w') => (Raised e, w')
  | (Ok response, w') =>
      if negb (status_code response =? 200)%Z then (Break links, w')
      else
        match mw_content_text (content response) with
        | None => (Break links, w')
        | Some items =>
            let '(links', found_items, last_item_this_page) :=
              scan_items base_url links items in
            if negb found_items then (Break links', w')
            else if negb (truthy last_item_this_page) then (Break links', w')
            else (Again links' last_item_this_page, w')
        end
  end.

(** In the words of the specification: the links a listing page newly
    contributes, in page order, as (resolved URL, display text). *)
Fixpoint discovered (links : gset string) (items : list (string * string))
    : list (string * string) :=
  match items with
  | [] => []
  | (href, text) :: rest =>
      if eligible href && bool_decide (base_url +:+ href ∉ links)
      then (base_url +:+ href, text)
             :: discovered ({[base_url +:+ href]} ∪ links) rest
      else discovered links rest
  end.

(** Every URL of [links] is the base URL followed by a path that the
    scan goes on with. *)
Definition links_eligible (links : gset string) : Prop :=
  forall u, u ∈ links -> exists href, u = base_url +:+ href /\ eligible href = true.

(** The next request gets a non-success status, or a listing that
    contributes no new link. *)
Definition nothing_new (w : World) (category_url : string)
    (links : gset string) (last_item : option string) : bool :=
  match session_get w (page_url category_url last_item) with
  | (Ok response, _) =>
      negb (status_code response =? 200)%Z
      || match mw_content_text (content response) with
         | Some items => bool_decide (discovered links items = [])
         | None => false
         end
  | (Raise _, _) => false
  end.

(** The state of the loop after [n] turns that all went on to another
    request; [None] when the loop ended before that. *)
Fixpoint after_turns (n : nat) (w : World) (category_url : string)
    (links : gset string) (last_item : option string)
    : option (World * gset string * option string) :=
  match n with
  | O => Some (w, links, last_item)
  | S n' =>
      match fetch_listing w category_url links last_item with
      | (Again links' last_item', w') =>
          after_turns n' w' category_url links' last_item'
      | _ => None
      end
  end.

(** The loop, with the number of turns it may take; the third component
    of the result counts the requests made. *)
Fixpoint extract_loop (fuel : nat) (w : World) (category_url : string)
    (links : gset string) (last_item : option string)
    : option (result (gset string) * World * nat) :=
  match fuel with
  | O => None
  | S fuel' =>
      match fetch_listing w category_url links last_item with
      | (Break links', w') => Some (Ok links', w', 1%nat)
      | (Raised e, w') => Some (Raise e, w', 1%nat)
      | (Again links' last_item', w') =>
          match extract_loop fuel' w' category_url links' last_item' with
          | Some (r, w'', n) => Some (r, w'', S n)
          | None => None
          end
      end
  end.

(** [ItemScraper._extract_category_items]: [list(links)], or [[]] when
    anything raised. *)
Definition _extract_category_items (fuel : nat) (w : World) (category_url : string)
    : option (list string * World) :=
  match extract_loop fuel w category_url ∅ None with
  | None => None
  | Some (Ok links, w', _) => Some (elements links, w')
  | Some (Raise _, w', _) => Some ([], w')
  end.

(** [ItemScraper.scrape_item_page] *)
Definition scrape_item_page (w : World) (url : string)
    : result (option Item) * World :=
  let '(r, w') := session_get w url in
  (try_except
     (let! response := r in
      match _parse_item_data (content response) with
      | None => Ok None
      | Some item_data =>
          if decide (item_data = ∅) then Ok None
          else
            let! last_part := last_item_of (Str.split "/" url) in
            let name := Str.replace "_" " " last_part in
            let item_type := _determine_item_type item_data in
            Ok (Some (build_item item_type name item_data))
      end)
     (fun _ => Ok None),
   w').

(** The record has attributes and is what [scrape_item_page] makes of
    the page of one of the URLs, one without [Category:] in it. *)
Definition scraped_from (urls : list string) (item : Item) : Prop :=
  attributes item <> ∅
  /\ exists url w w1,
       url ∈ urls /\ ~ Str.substring_of "Category:" url
       /\ scrape_item_page w url = (Ok (Some item), w1).

(** The [for url in urls] loop of [scrape_category]. *)
Fixpoint scrape_urls (s : Scraper World) (urls : list string) (items : list Item)
    : list Item * Scraper World :=
  match urls with
  | [] => (items, s)
  | url :: rest =>
      if Str.contains "Category:" url then scrape_urls s rest items
      else
        match scrape_item_page (world s) url with
        | (Ok item, w') =>
            let s' := mkScraper w' (failed_items s) (files s) in
            match item with
            | Some it =>
                if decide (attributes it = ∅) then scrape_urls s' rest items
                else scrape_urls s' rest (items ++ [it])
            | None => scrape_urls s' rest items
            end
        | (Raise _, w') =>
            scrape_urls (mkScraper w' (failed_items s ++ [url]) (files s)) rest items
        end
  end.

(** [ItemScraper.scrape_category] *)
Definition scrape_category (fuel : nat) (s : Scraper World) (category_url : string)
    : option (list Item * Scraper World) :=
  match _extract_category_items fuel (world s) category_url with
  | None => None
  | Some (urls, w') =>
      let s1 := mkScraper w' (failed_items s) (files s) in
      match urls with
      | [] => Some ([], s1)
      | _ :: _ =>
          let '(items, s2) := scrape_urls s1 urls [] in
          match items with
          | [] => Some ([], s2)
          | _ :: _ =>
              match _export_items output_dir (files s2) items with
              | (Ok _, fs') =>
                  Some (items, mkScraper (world s2) (failed_items s2) fs')
              | (Raise _, fs') =>
                  Some ([], mkScraper (world s2) (failed_items s2) fs')
              end
          end
      end
  end.

(** [ItemScraper.scrape_items]: the same loop over the given URLs, then
    the export; the outer handler turns an exception of the export into
    the empty result. *)
Definition scrape_items (s : Scraper World) (urls : list string)
    : list Item * Scraper World :=
  let '(items, s1) := scrape_urls s urls [] in
  match items with
  | [] => ([], s1)
  | _ :: _ =>
      match _export_items output_dir (files s1) items with
      | (Ok _, fs') => (items, mkScraper (world s1) (failed_items s1) fs')
      | (Raise _, fs') => ([], mkScraper (world s1) (failed_items s1) fs')
      end
  end.

Definition categories : list string :=
  ["/Category:Arms"; "/Category:Back"; "/Category:Chest";
   "/Category:Ear"; "/Category:Face"; "/Category:Feet";
   "/Category:Fingers"; "/Category:Hands"; "/Category:Head";
   "/Category:Legs"; "/Category:Neck"; "/Category:Shoulders";
   "/Category:Waist"; "/Category:Wrist";
   "/Category:Ammo"; "/Category:Primary";
   "/Category:Range"; "/Category:Secondary"].

(** [ItemScraper.crawl_categories], over a list of categories. *)
Fixpoint crawl (fuel : nat) (s : Scraper World) (cats : list string)
    (all_items : list Item) : option (list Item * Scraper World) :=
  match cats with
  | [] => Some (all_items, s)
  | category :: rest =>
      match scrape_category fuel s (base_url +:+ category) with
      | None => None
      | Some (items, s') => crawl fuel s' rest (all_items ++ items)
      end
  end.

Definition crawl_categories (fuel : nat) (s : Scraper World)
    : option (list Item * Scraper World) :=
  crawl fuel s categories [].

(** The two lines [main] reports: the number of items processed and,
    when [failed_items] is not empty, the number of failures. *)
Definition main_report (fuel : nat) (s : Scraper World)
    : option (nat * option nat) :=
  match crawl_categories fuel s with
  | None => None
  | Some (items, s') =>
      Some (length items,
            match failed_items s' with
            | [] => None
            | _ :: _ => Some (length (failed_items s'))
            end)
  end.

End Crawl.

End WikiScraper.

Import WikiScraper.

(** ** Sample inputs *)

Module Examples.

(** [{"Type": "1H Slashing", "Damage": "7"}] *)
Definition slashing_attrs : gmap string string :=
  <["Type" := "1H Slashing"]> (<["Damage" := "7"]> ∅).

(** The record the scraper builds from these attributes. *)
Definition slashing_item : Item :=
  build_item (_determine_item_type slashing_attrs) "Rusty Sword" slashing_attrs.

Definition base : string := "https://wiki.project1999.com".
Definition listing_url : string := base +:+ "/Category:Primary".

(** A site whose listing names one item, [/Rusty_Sword], on every page
    of the category, and whose every other URL cannot be reached. *)
Definition unreachable_site (w : unit) (url : string) : result Response * unit :=
  if Str.startswith url listing_url
  then (Ok (mkResponse 200 (mkSoup (Some [("/Rusty_Sword", "Rusty Sword")]) None)), tt)
  else (Raise ConnectionError, tt).

(** A listing whose last new link has no display text. *)
Definition blank_text_site (w : unit) (url : string) : result Response * unit :=
  (Ok (mkResponse 200
         (mkSoup (Some [("/Rusty_Sword", "Rusty Sword"); ("/Nameless", "")]) None)),
   tt).

(** A listing with a link to a category page and the link to its own
    next page, as the wiki writes it. *)
Definition next_page_href : string := "/index.php?title=Category:Primary&from=R".
Definition category_links_site (w : unit) (url : string) : result Response * unit :=
  (Ok (mkResponse 200
         (mkSoup (Some [("/Category:Weapons", "Weapons");
                        (next_page_href, "next 200")]) None)),
   tt).

(** A site whose listing links to the site root and whose every page
    carries an infobox. *)
Definition root_link_site (w : unit) (url : string) : result Response * unit :=
  (Ok (mkResponse 200 (mkSoup (Some [("/", "Main Page")]) (Some [["AC"; "5"]]))), tt).

(** [{"Slot": "Head", "AC": "5"}], an equipment record. *)
Definition helm_attrs : gmap string string :=
  <["Slot" := "Head"]> (<["AC" := "5"]> ∅).
Definition helm_item : Item :=
  build_item (_determine_item_type helm_attrs) "Bronze Helm" helm_attrs.

(** An equipment record without a [Slot]. *)
Definition cloak_item : Item := mkItem Equipment "Worn Cloak" (<["AC" := "2"]> ∅).

(** The same weapon as an object of the [Weapon] class of models.py. *)
Definition models_sword : Models.Item :=
  Models.mkItem Models.Weapon "Rusty Sword" slashing_attrs.

(** A transport that counts its requests: the first gets a listing with
    two items, every later one gets [later]. *)
Definition first_page : Response :=
  mkResponse 200
    (mkSoup (Some [("/Rusty_Sword", "Rusty Sword"); ("/Bronze_Helm", "Bronze Helm")])
            None).
Definition counting_site (later : result Response) (n : nat) (url : string)
    : result Response * nat :=
  (match n with
   | O => Ok first_page
   | S _ => later
   end, S n).

(** A response with a non-success status. *)
Definition not_found : Response := mkResponse 404 (mkSoup None None).

(** The helm as an object of the [Equipment] class of models.py. *)
Definition models_helm : Models.Item :=
  Models.mkItem Models.Equipment "Bronze Helm" helm_attrs.

(** A fresh scraper: nothing failed, nothing written. *)
Definition fresh : Scraper unit := mkScraper tt [] ∅.

End Examples.

(** * Properties *)

(** ** Strings *)

Section StringFacts.

Lemma startswith_spec (s p : string) :
  Str.startswith s p = true <-> exists post, s = p +:+ post.
Proof.
  revert s. induction p as [|a p IH]; intros s; simpl.
  - split; [intros _; by exists s | done].
  - destruct s as [|b s]; simpl.
    + split; [done | intros [post Hpost]; discriminate].
    + rewrite andb_true_iff, Ascii.eqb_eq, IH. split.
      * intros [-> [post ->]]. by exists post.
      * intros [post Hpost]. injection Hpost as -> ->. split; [done | by exists post].
Qed.

Lemma contains_cons (t : string) (c : ascii) (s : string) :
  Str.contains t (String c s) = Str.startswith (String c s) t || Str.contains t s.
Proof. reflexivity. Qed.

Lemma contains_prefix (t post : string) : Str.contains t (t +:+ post) = true.
Proof.
  assert (Str.startswith (t +:+ post) t = true) as Hp
    by (apply startswith_spec; by exists post).
  destruct (t +:+ post); simpl in *; by rewrite Hp.
Qed.

Lemma contains_spec (t s : string) :
  Str.contains t s = true <-> Str.substring_of t s.
Proof.
  unfold Str.substring_of. split.
  - induction s as [|c s IH].
    + simpl. rewrite orb_false_r, startswith_spec. intros [post ->].
      by exists EmptyString, post.
    + rewrite contains_cons, orb_true_iff, startswith_spec.
      intros [[post ->] | Hs].
      * by exists EmptyString, post.
      * destruct (IH Hs) as (pre & post & ->). by exists (String c pre), post.
  - intros (pre & post & ->). induction pre as [|c pre IH].
    + exact (contains_prefix t post).
    + change (String c pre +:+ t +:+ post) with (String c (pre +:+ t +:+ post)).
      rewrite contains_cons, IH. apply orb_true_r.
Qed.

Lemma any_in_spec (ts : list string) (s : string) :
  Str.any_in ts s = true <-> exists t, t ∈ ts /\ Str.substring_of t s.
Proof.
  unfold Str.any_in. rewrite existsb_exists. split.
  - intros (t & Hin & Hc). exists t. split; [by apply list_elem_of_In | by apply contains_spec].
  - intros (t & Hin & Hc). exists t. split; [by apply list_elem_of_In | by apply contains_spec].
Qed.

Lemma any_in_false (ts : list string) (s : string) :
  Str.any_in ts s = false <-> ~ exists t, t ∈ ts /\ Str.substring_of t s.
Proof.
  rewrite <- any_in_spec. destruct (Str.any_in ts s); split; intros; done.
Qed.

End StringFacts.

(** ** Classification *)

(** C3: without a [Type] attribute the classifier answers equipment; with
    one, it answers weapon exactly when the lower-cased value has one of
    the seven weapon tokens as a substring, and equipment otherwise. *)
Theorem determine_item_type_spec (item_data : gmap string string) :
  (item_data !! "Type" = None -> _determine_item_type item_data = "equipment")
  /\ (forall v, item_data !! "Type" = Some v ->
        ((exists t, t ∈ ["1h"; "2h"; "bow"; "throwing"; "piercing"; "blunt"; "slashing"]
                    /\ Str.substring_of t (Str.lower v))
         -> _determine_item_type item_data = "weapon")
        /\ ((~ exists t, t ∈ ["1h"; "2h"; "bow"; "throwing"; "piercing"; "blunt"; "slashing"]
                         /\ Str.substring_of t (Str.lower v))
            -> _determine_item_type item_data = "equipment")).
Proof.
  unfold _determine_item_type. split.
  - intros Hnone. case_decide; [done |]. by rewrite Hnone.
  - intros v Hv.
    assert (item_data <> ∅) as Hne by (intros ->; by rewrite lookup_empty in Hv).
    case_decide; [done |]. rewrite Hv.
    change (default "" (Some v)) with v. unfold weapon_types. split.
    + intros Hex. apply any_in_spec in Hex. by rewrite Hex.
    + intros Hnex. apply any_in_false in Hnex. by rewrite Hnex.
Qed.

(** [build_item] makes a weapon exactly for the answer ["weapon"]. *)
Lemma build_item_cls (item_type name : string) (item_data : gmap string string) :
  cls (build_item item_type name item_data)
  = if String.eqb item_type "weapon" then Weapon else Equipment.
Proof. reflexivity. Qed.

(** ** Destination of a record *)

(** C1, as the specification states it, fails: the record classified from
    [{"Type": "1H Slashing", "Damage": "7"}] is a weapon, but its
    destination is not [Slashing.csv]. *)
Lemma slashing_example_not_in_Slashing :
  ~ (cls Examples.slashing_item = Weapon
     /\ _get_category_path ["output"] Examples.slashing_item
        = ["output"; "weapons"; "Slashing.csv"]).
Proof. intros [_ H]. vm_compute in H. discriminate. Qed.

(** C1, amended: the record classified from
    [{"Type": "1H Slashing", "Damage": "7"}] is a weapon and its
    destination is [1H_Weapons.csv] under the weapons area, whatever the
    output directory and the record's name: ["1h"] comes before
    ["slashing"] in the weapon table and the first token found wins.  The
    destination is neither [misc.csv] nor [Slashing.csv]. *)
Theorem slashing_example_destination (output_dir : Path) (name : string) :
  let item :=
    build_item (_determine_item_type Examples.slashing_attrs) name
               Examples.slashing_attrs in
  cls item = Weapon
  /\ _get_category_path output_dir item = output_dir ++ ["weapons"; "1H_Weapons.csv"]
  /\ _get_category_path output_dir item <> output_dir ++ ["weapons"; "Slashing.csv"]
  /\ _get_category_path output_dir item <> output_dir ++ ["weapons"; "misc.csv"].
Proof.
  assert (_get_category_path output_dir
            (build_item (_determine_item_type Examples.slashing_attrs) name
                        Examples.slashing_attrs)
          = output_dir ++ ["weapons"; "1H_Weapons.csv"]) as Hpath.
  { unfold _get_category_path.
    change (cls (build_item _ _ _)) with Weapon.
    change (attributes (build_item _ name Examples.slashing_attrs))
      with Examples.slashing_attrs.
    rewrite <- app_assoc. f_equal. }
  cbv zeta. rewrite Hpath. split; [reflexivity |]. split; [reflexivity |].
  split; intros H; apply app_inv_head in H; discriminate.
Qed.

(** ** Failures of detail pages *)

Section Failures.

Variable World : Type.
Variable session_get : World -> string -> result Response * World.
Variable base_url : string.
Variable output_dir : Path.

Lemma try_except_none {A : Type} (r : result (option A)) :
  exists o, try_except r (fun _ => Ok None) = Ok o.
Proof. destruct r as [o | e]; simpl; eauto. Qed.

(** [scrape_item_page] handles every exception itself: it never raises,
    whatever the transport does. *)
Lemma scrape_item_page_never_raises (w : World) (url : string) :
  exists o, fst (scrape_item_page World session_get w url) = Ok o.
Proof.
  unfold scrape_item_page. destruct (session_get w url) as [r w']. simpl.
  apply try_except_none.
Qed.

(** A transport error on a detail page gives [None], like a page without
    an infobox. *)
Lemma scrape_item_page_transport_error (w w' : World) (url : string) (e : exn) :
  session_get w url = (Raise e, w') ->
  scrape_item_page World session_get w url = (Ok None, w').
Proof. intros H. unfold scrape_item_page. by rewrite H. Qed.

Lemma scrape_urls_failed_items (urls : list string) :
  forall (s : Scraper World) (items : list Item),
    failed_items (snd (scrape_urls World session_get s urls items)) = failed_items s.
Proof.
  induction urls as [|url rest IH]; intros s items; simpl; [done |].
  destruct (Str.contains "Category:" url); [apply IH |].
  destruct (scrape_item_page_never_raises (world s) url) as [o Ho].
  destruct (scrape_item_page World session_get (world s) url) as [r w'].
  simpl in Ho. subst r.
  destruct o as [it |]; [case_decide |]; by rewrite IH.
Qed.

(** [scrape_category] leaves [failed_items] as it found it. *)
Lemma scrape_category_keeps_failed_items (fuel : nat) (s s' : Scraper World)
    (category_url : string) (items : list Item) :
  scrape_category World session_get base_url output_dir fuel s category_url
    = Some (items, s') ->
  failed_items s' = failed_items s.
Proof.
  unfold scrape_category.
  destruct (_extract_category_items _ _ _ _ _ _) as [[urls w'] |]; [| done].
  destruct urls as [|url urls]; [intros [= _ <-]; done |].
  pose proof (scrape_urls_failed_items (url :: urls)
                (mkScraper w' (failed_items s) (files s)) []) as Hf.
  destruct (scrape_urls _ _ _ _ _) as [its s2]. simpl in Hf.
  destruct its as [|it its]; [intros [= _ <-]; done |].
  destruct (_export_items _ _ _) as [[u | e] fs']; intros [= _ <-]; done.
Qed.

Lemma crawl_keeps_failed_items (fuel : nat) (cats : list string) :
  forall (s s' : Scraper World) (all_items items : list Item),
    crawl World session_get base_url output_dir fuel s cats all_items
      = Some (items, s') ->
    failed_items s' = failed_items s.
Proof.
  induction cats as [|category rest IH]; intros s s' all_items items;
    cbn [crawl].
  - by intros [= _ <-].
  - destruct (scrape_category _ _ _ _ _ _ _) as [[its s1] |] eqn:Hcat; [| done].
    intros Hrest%IH. rewrite Hrest.
    by eapply scrape_category_keeps_failed_items.
Qed.

(** C2: [scrape_category] leaves [failed_items] as it found it, whatever
    the transport does on the detail pages: the branch that would append
    the URL is never taken, since [scrape_item_page] never raises.  A
    crawl that starts with no failure therefore reports none. *)
Theorem failures_never_recorded :
  (forall (fuel : nat) (s s' : Scraper World) (category_url : string)
          (items : list Item),
      scrape_category World session_get base_url output_dir fuel s category_url
        = Some (items, s') ->
      failed_items s' = failed_items s)
  /\ (forall (fuel : nat) (s : Scraper World) (report : nat * option nat),
        failed_items s = [] ->
        main_report World session_get base_url output_dir fuel s = Some report ->
        snd report = None).
Proof.
  split; [apply scrape_category_keeps_failed_items |].
  intros fuel s report Hnone. unfold main_report, crawl_categories.
  destruct (crawl _ _ _ _ _ _ _ _) as [[items s'] |] eqn:Hcrawl; [| done].
  apply crawl_keeps_failed_items in Hcrawl. rewrite Hcrawl, Hnone.
  by intros [= <-].
Qed.

End Failures.

(** C2 at a site where the detail page cannot be reached: the category
    crawl returns, and the URL is not in [failed_items]. *)
Lemma failures_never_recorded_unreachable :
  scrape_category unit Examples.unreachable_site Examples.base ["output"] 3
    Examples.fresh Examples.listing_url = Some ([], Examples.fresh)
  /\ fst (Examples.unreachable_site tt (Examples.base +:+ "/Rusty_Sword"))
     = Raise ConnectionError
  /\ failed_items Examples.fresh = [].
Proof.
  assert (scrape_category unit Examples.unreachable_site Examples.base ["output"] 3
            Examples.fresh Examples.listing_url = Some ([], Examples.fresh)) as Hrun
    by (vm_compute; reflexivity).
  split; [exact Hrun |]. split; [reflexivity |].
  exact (proj1 (failures_never_recorded unit Examples.unreachable_site Examples.base
                  ["output"])
           3%nat Examples.fresh Examples.fresh Examples.listing_url [] Hrun).
Defined.

(** ** Link extraction *)

Section Extraction.

Variable base_url : string.

Lemma scan_item_eligible (st : gset string * bool * option string)
    (href text : string) :
  scan_item base_url st (href, text)
  = if eligible href && bool_decide (base_url +:+ href ∉ st.1.1)
    then ({[base_url +:+ href]} ∪ st.1.1, true, Some text)
    else st.
Proof.
  destruct st as [[links found] last_text]. unfold scan_item, eligible.
  cbn [fst snd].
  destruct (Str.any_in namespace_markers href); [reflexivity |].
  destruct (Str.startswith href "/"); [| reflexivity].
  cbn [negb andb]. case_decide; case_bool_decide; done.
Qed.

Lemma discovered_cons (links : gset string) (href text : string)
    (rest : list (string * string)) :
  discovered base_url links ((href, text) :: rest)
  = if eligible href && bool_decide (base_url +:+ href ∉ links)
    then (base_url +:+ href, text)
           :: discovered base_url ({[base_url +:+ href]} ∪ links) rest
    else discovered base_url links rest.
Proof. reflexivity. Qed.

Lemma union_singleton_swap (x : string) (X Y : gset string) :
  ({[x]} ∪ X) ∪ Y = X ∪ ({[x]} ∪ Y).
Proof. by rewrite (comm_L (∪) {[x]} X), <- (assoc_L (∪)). Qed.

(** The scan computes what the specification calls the newly discovered
    links: it adds their URLs, raises the flag when there is one, and
    remembers the text of the last. *)
Lemma foldl_scan_item (items : list (string * string)) :
  forall (links : gset string) (found : bool) (last_text : option string),
    foldl (scan_item base_url) (links, found, last_text) items
    = (list_to_set (discovered base_url links items).*1 ∪ links,
       found || negb (bool_decide (discovered base_url links items = [])),
       match last (discovered base_url links items) with
       | Some p => Some (snd p)
       | None => last_text
       end).
Proof.
  induction items as [|[href text] rest IH]; intros links found last_text.
  - simpl. rewrite orb_false_r. by rewrite (left_id_L ∅ (∪)).
  - rewrite discovered_cons. cbn [foldl]. rewrite scan_item_eligible.
    cbn [fst snd].
    destruct (eligible href && bool_decide (base_url +:+ href ∉ links)).
    + rewrite IH. rewrite orb_true_r. cbn [fmap list_fmap fst negb].
      rewrite list_to_set_cons, union_singleton_swap, last_cons.
      by destruct (last _).
    + apply IH.
Qed.

Lemma scan_items_discovered (links : gset string) (items : list (string * string)) :
  scan_items base_url links items
  = (list_to_set (discovered base_url links items).*1 ∪ links,
     negb (bool_decide (discovered base_url links items = [])),
     snd <$> last (discovered base_url links items)).
Proof.
  unfold scan_items. rewrite foldl_scan_item. simpl. f_equal.
Qed.

(** Every discovered URL is the base URL followed by an eligible path. *)
Lemma discovered_eligible (items : list (string * string)) :
  forall (links : gset string) (u : string),
    u ∈ (discovered base_url links items).*1 ->
    exists href, u = base_url +:+ href /\ eligible href = true.
Proof.
  induction items as [|[href text] rest IH]; intros links u.
  - simpl. by intros ?%elem_of_nil.
  - rewrite discovered_cons.
    destruct (eligible href) eqn:He; simpl; [| apply IH].
    case_bool_decide; simpl; [| apply IH].
    rewrite elem_of_cons. intros [-> | Hin]; [by exists href | by eapply IH].
Qed.

End Extraction.

(** ** Pagination *)

Section Pagination.

Variable World : Type.
Variable session_get : World -> string -> result Response * World.
Variable base_url : string.

Local Abbreviation fetch_listing := (fetch_listing World session_get base_url).
Local Abbreviation extract_loop := (extract_loop World session_get base_url).
Local Abbreviation discovered := (discovered base_url).

(** One turn on a successful response with a content region, in terms
    of the links the page newly contributes. *)
Lemma fetch_listing_ok (w w' : World) (category_url : string)
    (links : gset string) (last_item : option string)
    (response : Response) (items : list (string * string)) :
  session_get w (page_url category_url last_item) = (Ok response, w') ->
  status_code response = 200%Z ->
  mw_content_text (content response) = Some items ->
  fetch_listing w category_url links last_item
  = (match discovered links items with
     | [] => Break links
     | _ :: _ =>
         let links' := list_to_set (discovered links items).*1 ∪ links in
         let cursor := snd <$> last (discovered links items) in
         if truthy cursor then Again links' cursor else Break links'
     end, w').
Proof.
  intros Hget Hstatus Hcontent. unfold WikiScraper.fetch_listing.
  rewrite Hget, Hstatus, Hcontent. cbn [Z.eqb Pos.eqb negb].
  rewrite scan_items_discovered.
  destruct (discovered links items) as [|p d] eqn:Hd.
  - cbn. by rewrite (left_id_L ∅ (∪)).
  - rewrite bool_decide_false by done. cbn [negb].
    by destruct (truthy _).
Qed.

Lemma nothing_new_break (w : World) (category_url : string)
    (links : gset string) (last_item : option string) :
  nothing_new World session_get base_url w category_url links last_item = true ->
  fetch_listing w category_url links last_item
  = (Break links, snd (session_get w (page_url category_url last_item))).
Proof.
  unfold nothing_new.
  destruct (session_get w (page_url category_url last_item)) as [[response | e] w'] eqn:Hget;
    [| done].
  destruct (status_code response =? 200)%Z eqn:Hstatus; cbn [negb orb].
  - destruct (mw_content_text (content response)) as [items |] eqn:Hcontent; [| done].
    intros Hd%bool_decide_eq_true.
    rewrite (fetch_listing_ok w w' category_url links last_item response items Hget
               (proj1 (Z.eqb_eq _ _) Hstatus) Hcontent).
    by rewrite Hd.
  - intros _. unfold WikiScraper.fetch_listing. by rewrite Hget, Hstatus.
Qed.

(** C5: when the request after [n] continuing turns gets a non-success
    status or a listing with no new link (or the loop has ended before),
    the loop returns for every fuel above [n] after at most [n + 1]
    requests; and such a request ends the loop at once, with the links
    gathered so far, whatever later pages would hold. *)
Theorem pagination_terminates :
  (forall (n : nat) (w : World) (category_url : string) (links : gset string)
          (last_item : option string),
      match after_turns World session_get base_url n w category_url links last_item with
      | Some (w1, links1, last1) =>
          nothing_new World session_get base_url w1 category_url links1 last1 = true
      | None => True
      end ->
      forall fuel, (n < fuel)%nat ->
        exists r w' k,
          extract_loop fuel w category_url links last_item = Some (r, w', k)
          /\ (k <= S n)%nat)
  /\ (forall (w : World) (category_url : string) (links : gset string)
             (last_item : option string),
        nothing_new World session_get base_url w category_url links last_item = true ->
        forall fuel,
          extract_loop (S fuel) w category_url links last_item
          = Some (Ok links, snd (session_get w (page_url category_url last_item)), 1%nat)).
Proof.
  split.
  - induction n as [|n IH]; intros w category_url links last_item Hstop fuel Hfuel;
      (destruct fuel as [|fuel]; [lia |]).
    + cbn in Hstop. cbn [WikiScraper.extract_loop].
      rewrite (nothing_new_break _ _ _ _ Hstop). eexists _, _, _. split; [done | lia].
    + cbn [after_turns WikiScraper.extract_loop] in *.
      destruct (fetch_listing w category_url links last_item) as [[l | l la | e] w'].
      * eexists _, _, _. split; [done | lia].
      * destruct (IH w' category_url l la Hstop fuel) as (r & w'' & k & -> & Hk); [lia |].
        eexists _, _, _. split; [done | lia].
      * eexists _, _, _. split; [done | lia].
  - intros w category_url links last_item Hstop fuel. cbn [WikiScraper.extract_loop].
    by rewrite (nothing_new_break _ _ _ _ Hstop).
Qed.

(** C6: a successful listing whose last newly discovered link has empty
    display text ends the loop with this request: the result is the set
    gathered so far together with the links of this page, and no further
    request is made. *)
Theorem empty_cursor_ends_pagination (w w' : World) (category_url : string)
    (links : gset string) (last_item : option string)
    (response : Response) (items : list (string * string)) (u : string) :
  session_get w (page_url category_url last_item) = (Ok response, w') ->
  status_code response = 200%Z ->
  mw_content_text (content response) = Some items ->
  last (discovered links items) = Some (u, "") ->
  forall fuel,
    extract_loop (S fuel) w category_url links last_item
    = Some (Ok (list_to_set (discovered links items).*1 ∪ links), w', 1%nat).
Proof.
  intros Hget Hstatus Hcontent Hlast fuel. cbn [WikiScraper.extract_loop].
  rewrite (fetch_listing_ok _ _ _ _ _ _ _ Hget Hstatus Hcontent).
  destruct (discovered links items) as [|p d] eqn:Hd; [done |].
  cbv zeta. by rewrite Hlast.
Qed.

Lemma links_eligible_discovered (links : gset string) (items : list (string * string)) :
  links_eligible base_url links ->
  links_eligible base_url (list_to_set (discovered links items).*1 ∪ links).
Proof.
  intros Hl u [Hu%elem_of_list_to_set | Hu]%elem_of_union; [| by apply Hl].
  by eapply discovered_eligible.
Qed.

(** A turn keeps the links eligible. *)
Lemma fetch_listing_eligible (w : World) (category_url : string)
    (links : gset string) (last_item : option string) :
  links_eligible base_url links ->
  match fst (fetch_listing w category_url links last_item) with
  | Break links' => links_eligible base_url links'
  | Again links' _ => links_eligible base_url links'
  | Raised _ => True
  end.
Proof.
  intros Hl. unfold WikiScraper.fetch_listing.
  destruct (session_get w (page_url category_url last_item)) as [[response | e] w'];
    [| done].
  destruct (negb (status_code response =? 200)%Z); [done |].
  destruct (mw_content_text (content response)) as [items |]; [| done].
  rewrite scan_items_discovered.
  pose proof (links_eligible_discovered links items Hl) as Hl'.
  destruct (negb (negb _)); [done |]. by destruct (negb (truthy _)).
Qed.

Lemma extract_loop_eligible (fuel : nat) :
  forall (w w' : World) (category_url : string) (links links' : gset string)
         (last_item : option string) (k : nat),
    links_eligible base_url links ->
    extract_loop fuel w category_url links last_item = Some (Ok links', w', k) ->
    links_eligible base_url links'.
Proof.
  induction fuel as [|fuel IH]; intros w w' category_url links links' last_item k Hl;
    [done |].
  cbn [WikiScraper.extract_loop].
  pose proof (fetch_listing_eligible w category_url links last_item Hl) as Hturn.
  destruct (fetch_listing w category_url links last_item) as [[l | l la | e] w1];
    cbn [fst] in Hturn.
  - by intros [= <- _ _].
  - destruct (extract_loop fuel w1 category_url l la) as [[[r w2] k2] |] eqn:Hrec;
      [| done].
    intros [= -> _ _]. by eapply IH.
  - done.
Qed.

Lemma append_inj_l (s t1 t2 : string) : s +:+ t1 = s +:+ t2 -> t1 = t2.
Proof. induction s as [|c s IH]; simpl; [done |]. intros [= H]. by apply IH. Qed.

(** C8, amended: a link whose path contains one of the markers the code
    lists, with [/Category:] for the category namespace, is skipped by
    the scan wherever the marker stands in the path, and its URL is never
    in the paginator's result. *)
Theorem marked_links_discarded (href : string) :
  (exists m, m ∈ ["/Category:"; "Special:"; "File:"; "Discussion:";
                   "Help:"; "User:"; "Template:"; "Project:"]
             /\ Str.substring_of m href) ->
  (forall (st : gset string * bool * option string) (text : string),
      scan_item base_url st (href, text) = st)
  /\ (forall (fuel : nat) (w w' : World) (category_url : string) (urls : list string),
        _extract_category_items World session_get base_url fuel w category_url
          = Some (urls, w') ->
        base_url +:+ href ∉ urls).
Proof.
  intros Hmark. apply any_in_spec in Hmark. fold namespace_markers in Hmark. split.
  - intros st text. rewrite scan_item_eligible. unfold eligible. by rewrite Hmark.
  - intros fuel w w' category_url urls. unfold _extract_category_items.
    destruct (extract_loop fuel w category_url ∅ None) as [[[[links | e] w1] k] |] eqn:Hrun;
      [| | done].
    + intros [= <- _] Hin%elem_of_elements.
      assert (links_eligible base_url ∅) as H0 by (intros u Hu; set_solver).
      destruct (extract_loop_eligible _ _ _ _ _ _ _ _ H0 Hrun _ Hin) as (h & Heq & Hel).
      apply append_inj_l in Heq. subst h. unfold eligible in Hel.
      by rewrite Hmark in Hel.
    + intros [= <- _]. apply not_elem_of_nil.
Qed.

End Pagination.

(** C5 at a site whose second listing page repeats the first: the second
    request contributes nothing and the loop returns within two requests. *)
Lemma pagination_terminates_repeating_site :
  exists r w' k,
    extract_loop unit Examples.unreachable_site Examples.base 2 tt
      Examples.listing_url ∅ None = Some (r, w', k)
    /\ (k <= 2)%nat.
Proof.
  apply (proj1 (pagination_terminates unit Examples.unreachable_site Examples.base)
           1%nat tt Examples.listing_url ∅ None).
  - vm_compute. reflexivity.
  - lia.
Defined.

(** C6 at a listing whose last new link has no text: one request, both
    links kept. *)
Lemma empty_cursor_ends_pagination_blank_text :
  extract_loop unit Examples.blank_text_site Examples.base 6 tt
    Examples.listing_url ∅ None
  = Some (Ok (list_to_set
                (discovered Examples.base ∅
                   [("/Rusty_Sword", "Rusty Sword"); ("/Nameless", "")]).*1 ∪ ∅),
          tt, 1%nat).
Proof.
  apply (empty_cursor_ends_pagination unit Examples.blank_text_site Examples.base
           tt tt Examples.listing_url ∅ None
           (mkResponse 200
              (mkSoup (Some [("/Rusty_Sword", "Rusty Sword"); ("/Nameless", "")]) None))
           [("/Rusty_Sword", "Rusty Sword"); ("/Nameless", "")]
           (Examples.base +:+ "/Nameless")).
  - reflexivity.
  - reflexivity.
  - reflexivity.
  - vm_compute. reflexivity.
Defined.

(** C8, as the specification states it, fails for the marker [Category:]:
    the link to the next listing page has [Category:] in its path, not
    preceded by a slash, and its URL is in the paginator's result. *)
Lemma category_marker_not_discarded :
  ~ (Str.substring_of "Category:" Examples.next_page_href ->
     forall urls w',
       _extract_category_items unit Examples.category_links_site Examples.base 2 tt
         Examples.listing_url = Some (urls, w') ->
       Examples.base +:+ Examples.next_page_href ∉ urls).
Proof.
  intros H.
  assert (Str.substring_of "Category:" Examples.next_page_href) as Hsub
    by (by exists "/index.php?title=", "Primary&from=R").
  assert (_extract_category_items unit Examples.category_links_site Examples.base 2 tt
            Examples.listing_url
          = Some ([Examples.base +:+ Examples.next_page_href], tt)) as Hrun
    by (vm_compute; reflexivity).
  apply (H Hsub _ _ Hrun). apply list_elem_of_here.
Qed.

(** C8 at the same listing: the link to [/Category:Weapons] is skipped
    and is not in the result. *)
Lemma marked_links_discarded_category_link :
  _extract_category_items unit Examples.category_links_site Examples.base 2 tt
    Examples.listing_url = Some ([Examples.base +:+ Examples.next_page_href], tt)
  /\ Examples.base +:+ "/Category:Weapons"
     ∉ [Examples.base +:+ Examples.next_page_href].
Proof.
  assert (_extract_category_items unit Examples.category_links_site Examples.base 2 tt
            Examples.listing_url
          = Some ([Examples.base +:+ Examples.next_page_href], tt)) as Hrun
    by (vm_compute; reflexivity).
  split; [exact Hrun |].
  refine (proj2 (marked_links_discarded unit Examples.category_links_site
                   Examples.base "/Category:Weapons" _) 2%nat tt tt
                Examples.listing_url _ Hrun).
  exists "/Category:". split.
  - apply list_elem_of_here.
  - by exists "", "Weapons".
Defined.

(** ** The name of a record *)

Section Names.

Lemma endswith_char_nil (c : ascii) : ~ Str.endswith_char "" c.
Proof. intros [[|a pre] Hpre]; discriminate. Qed.

Lemma endswith_char_cons (a c : ascii) (s : string) :
  Str.endswith_char (String a s) c <-> (s = "" /\ a = c) \/ Str.endswith_char s c.
Proof.
  unfold Str.endswith_char. split.
  - intros [[|b pre] Hpre]; simpl in Hpre; injection Hpre as -> ->.
    + by left.
    + right. by exists pre.
  - intros [[-> ->] | [pre ->]].
    + by exists "".
    + by exists (String a pre).
Qed.

Lemma endswith_char_app (s t : string) (c : ascii) :
  t <> "" -> Str.endswith_char (s +:+ t) c <-> Str.endswith_char t c.
Proof.
  intros Ht. induction s as [|a s IH]; [done |].
  change (String a s +:+ t) with (String a (s +:+ t)).
  rewrite endswith_char_cons, IH. split; [| by right].
  intros [[Hnil _] | H]; [| done].
  destruct s; [by destruct (Ht Hnil) | by inversion Hnil].
Qed.

Lemma split_nonempty (c : ascii) (s : string) : Str.split c s <> [].
Proof.
  destruct s as [|a s]; simpl; [done |].
  destruct (Ascii.eqb a c); [done |]. by destruct (Str.split c s).
Qed.

Lemma split_singleton_empty (c : ascii) (s : string) :
  Str.split c s = [""] -> s = "".
Proof.
  destruct s as [|a s]; simpl; [done |].
  destruct (Ascii.eqb a c).
  - intros [= H]. by destruct (split_nonempty c s).
  - by destruct (Str.split c s).
Qed.

(** [s.split(c)[-1]] exists, and is empty exactly when [s] is empty or
    ends with the separator. *)
Lemma split_last (c : ascii) (s : string) :
  exists seg, last (Str.split c s) = Some seg
              /\ (seg = "" <-> s = "" \/ Str.endswith_char s c).
Proof.
  induction s as [|a s (seg & Hlast & Hseg)].
  - exists "". split; [done |]. split; [by left | done].
  - simpl. destruct (Ascii.eqb a c) eqn:Hac.
    + apply Ascii.eqb_eq in Hac as ->. exists seg. split.
      * rewrite last_cons. by rewrite Hlast.
      * rewrite Hseg, endswith_char_cons. split.
        -- intros [-> | Hs]; right; [by left | by right].
        -- intros [[=] | [[-> _] | Hs]]; [by left | by right].
    + apply Ascii.eqb_neq in Hac.
      destruct (Str.split c s) as [|h t] eqn:Hsplit; [done |].
      destruct t as [|h' t].
      * exists (String a h). split; [done |]. split; [done |].
        intros [[=] | [[_ ?] | Hend]%endswith_char_cons]; [done |].
        injection Hlast as <-.
        assert (h = "") as -> by (apply Hseg; by right).
        apply split_singleton_empty in Hsplit as ->.
        by apply endswith_char_nil in Hend.
      * exists seg. split; [exact Hlast |].
        rewrite Hseg, endswith_char_cons. split.
        -- intros [-> | Hs]; [done | right; by right].
        -- intros [[=] | [[-> _] | Hs]]; [done | by right].
Qed.

Lemma replace_empty (a b : ascii) (s : string) : Str.replace a b s = "" <-> s = "".
Proof. by destruct s. Qed.

End Names.

Section RecordNames.

Variable World : Type.
Variable session_get : World -> string -> result Response * World.
Variable base_url : string.

(** What a record returned by [scrape_item_page] is made of. *)
Lemma scrape_item_page_some (w w' : World) (url : string) (item : Item) :
  scrape_item_page World session_get w url = (Ok (Some item), w') ->
  exists response item_data seg,
    session_get w url = (Ok response, w')
    /\ _parse_item_data (content response) = Some item_data
    /\ item_data <> ∅
    /\ last (Str.split "/" url) = Some seg
    /\ item = build_item (_determine_item_type item_data)
                         (Str.replace "_" " " seg) item_data.
Proof.
  unfold scrape_item_page.
  destruct (session_get w url) as [[response | e] w1]; cbn [bind try_except];
    [| discriminate].
  destruct (_parse_item_data (content response)) as [item_data |] eqn:Hparse;
    cbn [try_except]; [| discriminate].
  case_decide as Hne; cbn [try_except]; [discriminate |].
  destruct (split_last "/" url) as (seg & Hlast & _).
  unfold last_item_of. rewrite Hlast. cbn [bind try_except].
  intros [= <- <-]. by exists response, item_data, seg.
Qed.

(** C9, amended: the name of a record built from a URL the paginator
    can produce is the part of the URL after its last slash, with
    underscores replaced by spaces; it is empty exactly when the link's
    path ends in a slash. *)
Theorem record_name_of_url (w w' : World) (href : string) (item : Item) :
  eligible href = true ->
  scrape_item_page World session_get w (base_url +:+ href) = (Ok (Some item), w') ->
  (exists seg, last (Str.split "/" (base_url +:+ href)) = Some seg
               /\ name item = Str.replace "_" " " seg)
  /\ (name item = "" <-> Str.endswith_char href "/").
Proof.
  intros Hel Hpage.
  destruct (scrape_item_page_some _ _ _ _ Hpage)
    as (response & item_data & seg & _ & _ & _ & Hlast & ->).
  split; [by exists seg |].
  destruct (split_last "/" (base_url +:+ href)) as (seg' & Hlast' & Hseg).
  rewrite Hlast in Hlast'. injection Hlast' as <-.
  assert (href <> "") as Hne.
  { intros ->. unfold eligible in Hel. by rewrite andb_false_r in Hel. }
  cbn [name build_item]. rewrite replace_empty, Hseg, endswith_char_app by done.
  split; [| by right].
  intros [Hnil | H]; [| done]. destruct base_url, href; done.
Qed.

End RecordNames.

(** C9, as the specification states it, fails: a listing that links to
    the site root makes the paginator produce a URL that ends in a slash,
    and the record built from that page, which is exported, has the empty
    name. *)
Lemma record_with_empty_name :
  ~ (forall items s',
       scrape_category unit Examples.root_link_site Examples.base ["output"] 2
         Examples.fresh Examples.listing_url = Some (items, s') ->
       Forall (fun item => name item <> "") items).
Proof.
  intros H.
  assert (option_map (fun r => map name (fst r))
            (scrape_category unit Examples.root_link_site Examples.base ["output"] 2
               Examples.fresh Examples.listing_url) = Some [""]) as Hnames
    by (vm_compute; reflexivity).
  remember (scrape_category unit Examples.root_link_site Examples.base ["output"] 2
              Examples.fresh Examples.listing_url) as run eqn:Hrun in *.
  destruct run as [[items s'] |]; [| discriminate Hnames].
  specialize (H items s' eq_refl). injection Hnames as Hnames.
  destruct H as [|item items Hitem _]; [discriminate Hnames |].
  injection Hnames as Hname _. by apply Hitem.
Qed.

(** C9 at the page of [/Rusty_Sword]: the record is named [Rusty Sword]. *)
Lemma record_name_of_url_rusty_sword :
  (exists seg,
      last (Str.split "/" (Examples.base +:+ "/Rusty_Sword")) = Some seg
      /\ name (mkItem Equipment "Rusty Sword" (<["AC" := "5"]> ∅))
         = Str.replace "_" " " seg)
  /\ (name (mkItem Equipment "Rusty Sword" (<["AC" := "5"]> ∅)) = ""
      <-> Str.endswith_char "/Rusty_Sword" "/").
Proof.
  apply (record_name_of_url unit Examples.root_link_site Examples.base tt tt
           "/Rusty_Sword" (mkItem Equipment "Rusty Sword" (<["AC" := "5"]> ∅))).
  - reflexivity.
  - vm_compute. reflexivity.
Defined.

(** ** Grouping by destination file *)

Section Grouping.

Variable output_dir : Path.

Local Abbreviation path_of := (_get_category_path output_dir).

(** The destination of a weapon is under [weapons], that of an
    equipment record under [equipment]. *)
Lemma category_path_area (item : Item) :
  exists filename,
    path_of item
    = output_dir ++ [match cls item with
                     | Weapon => "weapons"
                     | Equipment => "equipment"
                     end; filename].
Proof.
  unfold _get_category_path. destruct (cls item); rewrite <- app_assoc; eauto.
Qed.

(** Records with the same destination have the same class. *)
Lemma category_path_class (a b : Item) : path_of a = path_of b -> cls a = cls b.
Proof.
  destruct (category_path_area a) as [fa ->], (category_path_area b) as [fb ->].
  intros H%app_inv_head. by destruct (cls a), (cls b).
Qed.

Lemma group_of_categorize_add (fp p : Path) (x : Item)
    (categorized : list (Path * list Item)) :
  group_of p (categorize_add fp x categorized)
  = if decide (p = fp) then Some (default [] (group_of fp categorized) ++ [x])
    else group_of p categorized.
Proof.
  induction categorized as [|[q its] rest IH]; simpl.
  - repeat case_decide; congruence.
  - destruct (decide (q = fp)) as [-> | Hq]; simpl.
    + repeat case_decide; congruence.
    + rewrite IH. repeat case_decide; congruence.
Qed.

Lemma keys_categorize_add (fp : Path) (x : Item)
    (categorized : list (Path * list Item)) :
  map fst (categorize_add fp x categorized)
  = if decide (fp ∈ map fst categorized) then map fst categorized
    else map fst categorized ++ [fp].
Proof.
  induction categorized as [|[q its] rest IH]; cbn [categorize_add map fst].
  - destruct (decide (fp ∈ [])) as [Hin | _]; [by apply elem_of_nil in Hin | done].
  - destruct (decide (q = fp)) as [-> | Hq]; cbn [map fst].
    + destruct (decide (fp ∈ fp :: map fst rest)) as [_ | Hin]; [done |].
      destruct Hin. apply list_elem_of_here.
    + rewrite IH.
      destruct (decide (fp ∈ map fst rest)) as [Hin | Hin],
               (decide (fp ∈ q :: map fst rest)) as [Hin' | Hin']; try done.
      * destruct Hin'. by apply list_elem_of_further.
      * apply elem_of_cons in Hin' as [? | ?]; congruence.
Qed.

Lemma categorize_snoc (items : list Item) (x : Item) :
  categorize output_dir (items ++ [x])
  = categorize_add (path_of x) x (categorize output_dir items).
Proof. unfold categorize. by rewrite foldl_app. Qed.

(** No destination appears twice in [categorized]. *)
Lemma categorize_NoDup (items : list Item) :
  NoDup (map fst (categorize output_dir items)).
Proof.
  induction items as [|x items IH] using rev_ind; [constructor |].
  rewrite categorize_snoc, keys_categorize_add. case_decide; [done |].
  apply NoDup_app. split; [done |]. split; [| apply NoDup_singleton].
  intros p Hp ->%list_elem_of_singleton. done.
Qed.

(** The group of a destination is the records routed to it, in the
    order of the batch; a destination no record is routed to has none. *)
Lemma group_of_categorize (items : list Item) (p : Path) :
  group_of p (categorize output_dir items)
  = match filter (fun item => path_of item = p) items with
    | [] => None
    | first :: others => Some (first :: others)
    end.
Proof.
  induction items as [|x items IH] using rev_ind; [done |].
  rewrite categorize_snoc, group_of_categorize_add, filter_app, filter_cons, filter_nil.
  destruct (decide (p = path_of x)) as [-> | Hp].
  - rewrite decide_True by done. rewrite IH.
    by destruct (filter _ items).
  - rewrite decide_False by done. by rewrite app_nil_r.
Qed.

Lemma group_of_elem_of (categorized : list (Path * list Item)) (p : Path)
    (its : list Item) :
  NoDup (map fst categorized) ->
  (p, its) ∈ categorized <-> group_of p categorized = Some its.
Proof.
  induction categorized as [|[q its'] rest IH]; simpl; intros Hnd.
  - split; [by intros ?%elem_of_nil | done].
  - apply NoDup_cons in Hnd as [Hq Hnd]. rewrite elem_of_cons, (IH Hnd).
    destruct (decide (q = p)) as [-> | Hne].
    + split; [| intros [= ->]; by left].
      intros [[= ->] | Hg]; [done |]. exfalso. apply Hq.
      apply (IH Hnd) in Hg. apply list_elem_of_In, in_map_iff.
      exists (p, its). split; [done | by apply list_elem_of_In].
    + split; [| by right]. intros [[= ]| ?]; congruence.
Qed.

(** The groups are exactly the non-empty classes of the batch under
    "has this destination". *)
Lemma elem_of_categorize (items : list Item) (p : Path) (its : list Item) :
  (p, its) ∈ categorize output_dir items
  <-> its <> [] /\ its = filter (fun item => path_of item = p) items.
Proof.
  rewrite (group_of_elem_of _ _ _ (categorize_NoDup items)), group_of_categorize.
  destruct (filter _ items) as [|first others]; split.
  - done.
  - by intros [? ->].
  - by intros [= <-].
  - by intros [_ ->].
Qed.

End Grouping.

(** C10: a weapon resolves to a path under the weapons area and an
    equipment record to one under the equipment area; hence every group
    of the batch export holds records of one class only, all routed to
    the group's file, and the schema taken from the first record of a
    group is the schema of every record in it. *)
Theorem groups_are_homogeneous (output_dir : Path) (items : list Item) :
  (forall item,
      exists filename,
        _get_category_path output_dir item
        = output_dir ++ [match cls item with
                         | Weapon => "weapons"
                         | Equipment => "equipment"
                         end; filename])
  /\ (forall p its,
        (p, its) ∈ categorize output_dir items ->
        exists first others,
          its = first :: others
          /\ Forall (fun item => item ∈ items
                                 /\ _get_category_path output_dir item = p
                                 /\ cls item = cls first) its
          /\ Forall (fun item =>
                       FIELDS (cls item)
                       = match cls first with
                         | Weapon => Weapon_FIELDS
                         | Equipment => Equipment_FIELDS
                         end) its).
Proof.
  split; [apply category_path_area |].
  intros p its [Hne Hits]%elem_of_categorize.
  destruct its as [|first others]; [done |]. exists first, others.
  split; [done |].
  assert (forall item, item ∈ first :: others ->
                       item ∈ items /\ _get_category_path output_dir item = p)
    as Hin.
  { intros item. rewrite Hits, list_elem_of_filter. tauto. }
  assert (forall item, item ∈ first :: others -> cls item = cls first) as Hcls.
  { intros item Hitem. apply (category_path_class output_dir).
    destruct (Hin item Hitem) as [_ ->].
    by destruct (Hin first (list_elem_of_here _ _)) as [_ ->]. }
  split; apply Forall_forall; intros item Hitem.
  - destruct (Hin item Hitem). split; [done |]. split; [done | by apply Hcls].
  - rewrite (Hcls item Hitem). by destruct (cls first).
Qed.

(** C10 on a batch of one weapon and two equipment records: the group of
    [equipment/misc.csv] is the single record without a slot. *)
Lemma groups_are_homogeneous_mixed_batch :
  exists first others,
    [Examples.cloak_item] = first :: others
    /\ Forall (fun item =>
                 item ∈ [Examples.slashing_item; Examples.cloak_item;
                         Examples.helm_item]
                 /\ _get_category_path ["output"] item
                    = ["output"; "equipment"; "misc.csv"]
                 /\ cls item = cls first) [Examples.cloak_item]
    /\ Forall (fun item =>
                 FIELDS (cls item)
                 = match cls first with
                   | Weapon => Weapon_FIELDS
                   | Equipment => Equipment_FIELDS
                   end) [Examples.cloak_item].
Proof.
  apply (proj2 (groups_are_homogeneous ["output"]
                  [Examples.slashing_item; Examples.cloak_item; Examples.helm_item])
           ["output"; "equipment"; "misc.csv"] [Examples.cloak_item]).
  apply elem_of_categorize. split; [done |]. vm_compute. reflexivity.
Defined.

(** ** Writing the files *)

Section FileWrites.

Lemma wrong_fields_nil (fields : list string) (rowdict : gmap string string) :
  Csv.wrong_fields fields rowdict = []
  <-> forall k, is_Some (rowdict !! k) -> k ∈ fields.
Proof.
  unfold Csv.wrong_fields. split.
  - intros Hnil k Hk. destruct (decide (k ∈ fields)) as [| Hout]; [done |].
    assert (k ∈ filter (fun k => k ∉ fields) (elements (dom rowdict))) as Hin.
    { apply list_elem_of_filter. split; [done |].
      by apply elem_of_elements, elem_of_dom. }
    rewrite Hnil in Hin. by apply elem_of_nil in Hin.
  - intros Hall.
    destruct (filter _ _) as [|k ks] eqn:Hf; [done |].
    assert (k ∈ filter (fun k => k ∉ fields) (elements (dom rowdict))) as Hin
      by (rewrite Hf; apply list_elem_of_here).
    apply list_elem_of_filter in Hin as [Hout Hin]. destruct Hout.
    by apply Hall, elem_of_dom, elem_of_elements.
Qed.

(** [writerow] either writes the item's row or raises [ValueError]. *)
Lemma dict_to_list_cases (fields : list string) (item : Item) :
  Csv.dict_to_list fields (to_dict item) = Ok (row_of fields item)
  \/ Csv.dict_to_list fields (to_dict item) = Raise ValueError.
Proof. unfold Csv.dict_to_list. destruct (Csv.wrong_fields _ _); auto. Qed.

Lemma dict_to_list_conforming (item : Item) :
  conforming item ->
  Csv.dict_to_list (FIELDS (cls item)) (to_dict item)
  = Ok (row_of (FIELDS (cls item)) item).
Proof.
  intros Hc. unfold Csv.dict_to_list.
  by rewrite (proj2 (wrong_fields_nil _ _) Hc).
Qed.

(** The rows written for a group are the rows of the records before the
    first one that raises. *)
Lemma write_rows_spec (fields : list string) (its : list Item) :
  forall (written : list row) (r : result unit) (rows : list row),
    write_rows fields its written = (r, rows) ->
    exists done, done `prefix_of` its
                 /\ rows = written ++ map (row_of fields) done
                 /\ (r = Ok tt -> done = its).
Proof.
  induction its as [|it its IH]; intros written r rows; cbn [write_rows].
  - intros [= <- <-]. exists []. by rewrite app_nil_r.
  - destruct (dict_to_list_cases fields it) as [-> | ->].
    + intros (done & Hpre & -> & Hok)%IH. exists (it :: done).
      split; [by apply prefix_cons |]. split; [by rewrite <- app_assoc |].
      intros Hr. by rewrite (Hok Hr).
    + intros [= <- <-]. exists []. split; [apply prefix_nil |].
      by rewrite app_nil_r.
Qed.

Lemma write_rows_ok (fields : list string) (its : list Item) :
  forall written : list row,
    Forall (fun it => Csv.dict_to_list fields (to_dict it) = Ok (row_of fields it)) its ->
    write_rows fields its written = (Ok tt, written ++ map (row_of fields) its).
Proof.
  induction its as [|it its IH]; intros written Hall; cbn [write_rows].
  - by rewrite app_nil_r.
  - apply Forall_cons in Hall as [-> Hall]. rewrite (IH _ Hall).
    by rewrite <- app_assoc.
Qed.

(** One file: the header of the first record's class, then rows. *)
Lemma export_category_spec (fs fs' : FS) (p : Path) (first : Item)
    (others : list Item) (r : result unit) :
  export_category fs p (first :: others) = (r, fs') ->
  exists done,
    done `prefix_of` first :: others
    /\ fs' = <[p := FIELDS (cls first) :: map (row_of (FIELDS (cls first))) done]> fs
    /\ (r = Ok tt -> done = first :: others).
Proof.
  unfold export_category.
  change (match cls first with
          | Weapon => Weapon_FIELDS
          | Equipment => Equipment_FIELDS
          end) with (FIELDS (cls first)).
  destruct (write_rows _ _ _) as [r' rows] eqn:Hw. intros [= <- <-].
  apply write_rows_spec in Hw as (done & Hpre & -> & Hok). by exists done.
Qed.

(** Every file the export leaves behind is either as it was, or holds
    the header of a group's class followed by rows of that group. *)
Lemma export_categories_files (categorized : list (Path * list Item)) :
  forall (fs fs' : FS) (r : result unit) (p : Path),
    export_categories fs categorized = (r, fs') ->
    fs' !! p = fs !! p
    \/ exists first others done,
         (p, first :: others) ∈ categorized
         /\ done `prefix_of` first :: others
         /\ fs' !! p
            = Some (FIELDS (cls first) :: map (row_of (FIELDS (cls first))) done).
Proof.
  induction categorized as [|[q its] rest IH]; intros fs fs' r p;
    cbn [export_categories].
  - intros [= _ <-]. by left.
  - destruct its as [|first others].
    { cbn. intros [= _ <-]. by left. }
    destruct (export_category fs q (first :: others)) as [r1 fs1] eqn:Hcat.
    apply export_category_spec in Hcat as (done & Hpre & -> & _).
    assert (<[q := FIELDS (cls first) :: map (row_of (FIELDS (cls first))) done]> fs !! p
            = fs !! p
            \/ exists first0 others0 done0,
                 (p, first0 :: others0) ∈ (q, first :: others) :: rest
                 /\ done0 `prefix_of` first0 :: others0
                 /\ <[q := FIELDS (cls first) :: map (row_of (FIELDS (cls first))) done]> fs !! p
                    = Some (FIELDS (cls first0)
                              :: map (row_of (FIELDS (cls first0))) done0)) as Hhere.
    { destruct (decide (q = p)) as [-> | Hne].
      - right. exists first, others, done. rewrite lookup_insert_eq.
        split; [apply list_elem_of_here | done].
      - left. by rewrite lookup_insert_ne. }
    destruct r1 as [[] | e].
    + intros Hrest. destruct (IH _ _ _ p Hrest) as [-> | (f & o & d & Hin & Hd & ->)];
        [done |].
      right. exists f, o, d. split; [by apply list_elem_of_further | done].
    + by intros [= _ <-].
Qed.

Lemma group_of_not_key (categorized : list (Path * list Item)) (p : Path) :
  p ∉ map fst categorized -> group_of p categorized = None.
Proof.
  induction categorized as [|[q its] rest IH]; [done |]. cbn [map fst group_of].
  intros Hp. destruct (decide (q = p)) as [-> | Hne].
  - destruct Hp. apply list_elem_of_here.
  - apply IH. intros Hin. apply Hp. by apply list_elem_of_further.
Qed.

(** When no row raises, every group's file holds the header and all the
    rows of the group, and the other files are as they were. *)
Lemma export_categories_ok (categorized : list (Path * list Item)) :
  forall fs : FS,
    NoDup (map fst categorized) ->
    Forall (fun g => exists first others,
                       snd g = first :: others
                       /\ Forall (fun it => Csv.dict_to_list (FIELDS (cls first)) (to_dict it)
                                            = Ok (row_of (FIELDS (cls first)) it))
                                 (first :: others)) categorized ->
    exists fs',
      export_categories fs categorized = (Ok tt, fs')
      /\ forall p,
           fs' !! p = match group_of p categorized with
                      | Some (first :: others) =>
                          Some (FIELDS (cls first)
                                  :: map (row_of (FIELDS (cls first))) (first :: others))
                      | _ => fs !! p
                      end.
Proof.
  induction categorized as [|[q its] rest IH]; intros fs Hnd Hall.
  - exists fs. by split.
  - cbn [map fst] in Hnd. apply NoDup_cons in Hnd as [Hq Hnd].
    apply Forall_cons in Hall as [(first & others & Hits & Hrows) Hall].
    cbn [snd] in Hits. subst its. cbn [export_categories].
    unfold export_category.
    change (match cls first with
            | Weapon => Weapon_FIELDS
            | Equipment => Equipment_FIELDS
            end) with (FIELDS (cls first)).
    rewrite (write_rows_ok _ _ _ Hrows). cbn [app]. unfold Csv.header.
    destruct (IH (<[q := FIELDS (cls first)
                          :: map (row_of (FIELDS (cls first))) (first :: others)]> fs)
                 Hnd Hall) as (fs' & Hrun & Hfs').
    exists fs'. split; [exact Hrun |]. intros p. rewrite Hfs'. cbn [group_of].
    destruct (decide (q = p)) as [-> | Hne].
    + rewrite (group_of_not_key _ _ Hq). by rewrite lookup_insert_eq.
    + destruct (group_of p rest) as [[|f o] |]; try done;
        by rewrite lookup_insert_ne.
Qed.

End FileWrites.

(** ** The batch export *)

Section BatchExport.

Variable output_dir : Path.

Lemma group_members (items : list Item) (p : Path) (its : list Item) :
  (p, its) ∈ categorize output_dir items ->
  forall item, item ∈ its ->
    item ∈ items /\ _get_category_path output_dir item = p.
Proof.
  intros [_ ->]%elem_of_categorize item. rewrite list_elem_of_filter. tauto.
Qed.

Lemma group_same_class (items : list Item) (p : Path) (first : Item)
    (others : list Item) :
  (p, first :: others) ∈ categorize output_dir items ->
  forall item, item ∈ first :: others -> cls item = cls first.
Proof.
  intros Hg item Hitem. apply (category_path_class output_dir).
  destruct (group_members _ _ _ Hg item Hitem) as [_ ->].
  by destruct (group_members _ _ _ Hg first (list_elem_of_here _ _)) as [_ ->].
Qed.

Lemma prefix_elem_of {A : Type} (l1 l2 : list A) (x : A) :
  l1 `prefix_of` l2 -> x ∈ l1 -> x ∈ l2.
Proof. intros [k ->] Hx. apply elem_of_app. by left. Qed.

(** The groups' sizes add up to the size of the batch. *)
Lemma categorize_add_size (fp : Path) (x : Item)
    (categorized : list (Path * list Item)) :
  sum_list (map (fun g => length (snd g)) (categorize_add fp x categorized))
  = S (sum_list (map (fun g => length (snd g)) categorized)).
Proof.
  induction categorized as [|[q its] rest IH]; cbn [categorize_add]; [done |].
  destruct (decide (q = fp)); cbn [map sum_list sum_list_with snd].
  - rewrite length_app. cbn. lia.
  - change (sum_list_with id ?l) with (sum_list l). rewrite IH. lia.
Qed.

Lemma categorize_size (items : list Item) :
  sum_list (map (fun g => length (snd g)) (categorize output_dir items))
  = length items.
Proof.
  induction items as [|x items IH] using rev_ind; [done |].
  rewrite categorize_snoc, categorize_add_size, IH, length_app. cbn. lia.
Qed.

(** X15: a batch whose records have no attribute outside their schema is
    written in full: every destination's file is replaced by the header
    and one row per record routed to it, a destination with no record is
    left alone, and the data rows of the files written are as many as the
    records. *)
Lemma export_items_conforming (fs : FS) (items : list Item) :
  Forall conforming items ->
  exists fs',
    _export_items output_dir fs items = (Ok tt, fs')
    /\ (forall p,
          fs' !! p
          = match filter (fun item => _get_category_path output_dir item = p) items with
            | [] => fs !! p
            | first :: others =>
                Some (FIELDS (cls first)
                        :: map (row_of (FIELDS (cls first))) (first :: others))
            end)
    /\ data_rows fs' (map fst (categorize output_dir items)) = length items.
Proof.
  intros Hconf. unfold _export_items.
  destruct (export_categories_ok (categorize output_dir items) fs
              (categorize_NoDup output_dir items)) as (fs' & Hrun & Hfs').
  { apply Forall_forall. intros [p its] Hg.
    pose proof Hg as [Hne Hits]%elem_of_categorize.
    destruct its as [|first others]; [done |]. exists first, others.
    split; [done |]. apply Forall_forall. intros item Hitem.
    rewrite <- (group_same_class _ _ _ _ Hg item Hitem).
    apply dict_to_list_conforming.
    destruct (group_members _ _ _ Hg item Hitem) as [Hin _].
    by apply (proj1 (Forall_forall _ _) Hconf). }
  exists fs'. split; [done |]. split.
  - intros p. rewrite Hfs', group_of_categorize.
    by destruct (filter _ items).
  - rewrite <- categorize_size. unfold data_rows. rewrite map_map. f_equal.
    apply map_ext_in. intros [p its] Hg%list_elem_of_In. cbn [fst snd].
    pose proof Hg as [Hne _]%elem_of_categorize.
    apply (group_of_elem_of _ _ _ (categorize_NoDup output_dir items)) in Hg.
    rewrite Hfs', Hg. destruct its as [|first others]; [done |].
    cbn. by rewrite length_map.
Qed.

End BatchExport.

(** C4 at a batch of one equipment record with a [Slot]: the file is
    opened and gets its header, then [writerow] raises [ValueError]
    because [Slot] is not a column of [Equipment.FIELDS]; the record's
    row is not written, so the file has no data row for a batch of one. *)
Theorem export_items_slot_raises :
  fst (_export_items ["output"] ∅ [Examples.helm_item]) = Raise ValueError
  /\ snd (_export_items ["output"] ∅ [Examples.helm_item])
       !! ["output"; "equipment"; "Head.csv"]
     = Some [Equipment_FIELDS]
  /\ map fst (categorize ["output"] [Examples.helm_item])
     = [["output"; "equipment"; "Head.csv"]]
  /\ data_rows (snd (_export_items ["output"] ∅ [Examples.helm_item]))
       (map fst (categorize ["output"] [Examples.helm_item])) = 0%nat
  /\ length [Examples.helm_item] = 1%nat.
Proof. repeat split; vm_compute; reflexivity. Qed.

(** ** Schemas *)

(** C7, as the specification states it, fails: for the same weapon the
    append primitive, given an object of the [Weapon] class of models.py,
    writes another header than the batch writer does. *)
Lemma append_header_differs_from_batch_header :
  ~ (head (default []
             (snd (@Exporters.export_item Models.Item Models.Item_exportable
                     ["output"; "weapons"] ∅ Examples.models_sword "1H_Weapons.csv")
                !! ["output"; "weapons"; "1H_Weapons.csv"]))
     = head (default []
               (snd (_export_items ["output"] ∅ [Examples.slashing_item])
                  !! ["output"; "weapons"; "1H_Weapons.csv"]))).
Proof. vm_compute. discriminate. Qed.

(** C7, amended: every file the batch writer leaves behind in one run is
    either untouched or holds the schema of one class of wiki_scraper.py
    as its header, followed by rows of records of that class laid out
    along that same schema; the append primitive, given a record of a
    class of wiki_scraper.py, writes the header and the row along the
    schema of the record's class, the one the batch writer uses; and in
    a row laid out along a schema, the value of the field at position
    [i] of the schema stands at position [i]. *)
Theorem rows_follow_class_schema :
  (forall (output_dir : Path) (fs fs' : FS) (items : list Item)
          (r : result unit) (p : Path),
      _export_items output_dir fs items = (r, fs') ->
      fs' !! p = fs !! p
      \/ exists c done,
           Forall (fun item => item ∈ items /\ cls item = c) done
           /\ fs' !! p = Some (FIELDS c :: map (row_of (FIELDS c)) done))
  /\ (forall (base_path : Path) (fs : FS) (item : Item) (filename : string),
        let filepath := base_path ++ [filename] in
        let start :=
          match default [] (fs !! filepath) with
          | [] => [FIELDS (cls item)]
          | existing => existing
          end in
        Exporters.export_item base_path fs item filename
        = (Ok tt, <[filepath := start ++ [row_of (FIELDS (cls item)) item]]> fs)
        \/ Exporters.export_item base_path fs item filename
           = (Raise ValueError, <[filepath := start]> fs))
  /\ (forall (c : item_class) (item : Item) (i : nat) (k : string),
        FIELDS c !! i = Some k ->
        row_of (FIELDS c) item !! i = Some (default "" (to_dict item !! k))).
Proof.
  split; [| split].
  - intros output_dir fs fs' items r p Hrun. unfold _export_items in Hrun.
    destruct (export_categories_files _ _ _ _ p Hrun)
      as [-> | (first & others & done & Hg & Hpre & ->)]; [by left |].
    right. exists (cls first), done. split; [| done].
    apply Forall_forall. intros item Hitem.
    pose proof (prefix_elem_of _ _ _ Hpre Hitem) as Hin. split.
    + by destruct (group_members _ _ _ _ Hg item Hin).
    + by apply (group_same_class _ _ _ _ _ Hg).
  - intros base_path fs item filename. cbv zeta. unfold Exporters.export_item.
    cbn [class_FIELDS to_dict Item_exportable]. unfold Csv.header.
    destruct (dict_to_list_cases (FIELDS (cls item)) item) as [H | H];
      unfold to_dict, Item_exportable in H; rewrite H.
    + left. by destruct (default [] _).
    + right. by destruct (default [] _).
  - intros c item i k Hk. unfold row_of.
    pose proof (list_lookup_fmap (fun k => default "" (to_dict item !! k))
                  (FIELDS c) i) as Hrow.
    rewrite Hk in Hrow. exact Hrow.
Qed.

(** ** The attributes of a page *)

Section Attributes.

Lemma parse_step_lookup (data : gmap string string) (cols : list string)
    (key : string) :
  match cols with
  | [k; v] => <[Str.strip k := Str.strip v]> data
  | _ => data
  end !! key
  = match row_value key cols with
    | Some v => Some v
    | None => data !! key
    end.
Proof.
  destruct cols as [|k [|v [|x cols]]]; try done.
  unfold row_value. destruct (decide (Str.strip k = key)) as [<- | Hne].
  - by rewrite lookup_insert_eq.
  - by rewrite lookup_insert_ne.
Qed.

Lemma parse_rows_lookup (rows : list (list string)) (key : string) :
  foldl (fun (data : gmap string string) cols =>
           match cols with
           | [k; v] => <[Str.strip k := Str.strip v]> data
           | _ => data
           end) ∅ rows !! key
  = last (omap (row_value key) rows).
Proof.
  induction rows as [|cols rows IH] using rev_ind; [done |].
  rewrite foldl_app. cbn [foldl]. rewrite parse_step_lookup, IH, omap_app.
  cbn [omap list_omap]. destruct (row_value key cols) as [v |].
  - by rewrite last_snoc.
  - by rewrite app_nil_r.
Qed.

(** X1: [_parse_item_data] answers [None] exactly for a page without an
    infobox; otherwise the value it holds for a label is the trimmed
    second cell of the last two-cell row whose trimmed first cell is that
    label, and rows with another number of cells play no role. *)
Theorem parse_item_data_lookup (soup : Soup) :
  (infobox soup = None -> _parse_item_data soup = None)
  /\ (forall rows,
        infobox soup = Some rows ->
        exists data,
          _parse_item_data soup = Some data
          /\ forall key, data !! key = last (omap (row_value key) rows)).
Proof.
  unfold _parse_item_data. split.
  - by intros ->.
  - intros rows ->. eexists. split; [done |]. apply parse_rows_lookup.
Qed.

(** The parsed attributes are empty exactly when no row has two cells. *)
Lemma parse_rows_nonempty (rows : list (list string)) :
  foldl (fun (data : gmap string string) cols =>
           match cols with
           | [k; v] => <[Str.strip k := Str.strip v]> data
           | _ => data
           end) ∅ rows <> ∅
  <-> exists k v, [k; v] ∈ rows.
Proof.
  split.
  - intros Hne. apply map_choose in Hne as (key & x & Hkey).
    rewrite parse_rows_lookup in Hkey.
    assert (x ∈ omap (row_value key) rows) as Hx.
    { destruct (omap (row_value key) rows) as [|y l] using rev_ind; [done |].
      rewrite last_snoc in Hkey. injection Hkey as ->.
      apply elem_of_app. right. apply list_elem_of_here. }
    apply list_elem_of_omap in Hx as (cols & Hcols & Hrow).
    destruct cols as [|k [|v [|y cols]]]; try done. by exists k, v.
  - intros (k & v & Hin) Hempty.
    assert (Str.strip v ∈ omap (row_value (Str.strip k)) rows) as Hx.
    { apply list_elem_of_omap. exists [k; v]. split; [done |].
      unfold row_value. by rewrite decide_True. }
    pose proof (parse_rows_lookup rows (Str.strip k)) as Hlook.
    rewrite Hempty, lookup_empty in Hlook.
    destruct (omap (row_value (Str.strip k)) rows) as [|y l] using rev_ind.
    + by apply elem_of_nil in Hx.
    + by rewrite last_snoc in Hlook.
Qed.

End Attributes.

(** ** Records of detail pages *)

Section PageRecords.

Variable World : Type.
Variable session_get : World -> string -> result Response * World.

Local Abbreviation scrape_item_page := (scrape_item_page World session_get).

(** X2: a transport error gives no record; a page that was fetched gives
    a record exactly when its infobox has a row of two cells, whatever the
    status code of the response, and the record carries the parsed
    attributes. *)
Theorem scrape_item_page_record (w : World) (url : string) :
  (forall e w', session_get w url = (Raise e, w') ->
                scrape_item_page w url = (Ok None, w'))
  /\ (forall response w',
        session_get w url = (Ok response, w') ->
        ((exists rows k v, infobox (content response) = Some rows /\ [k; v] ∈ rows) ->
         exists item,
           scrape_item_page w url = (Ok (Some item), w')
           /\ _parse_item_data (content response) = Some (attributes item)
           /\ attributes item <> ∅)
        /\ ((~ exists rows k v,
                 infobox (content response) = Some rows /\ [k; v] ∈ rows) ->
            scrape_item_page w url = (Ok None, w'))).
Proof.
  split; [intros e w' Hget; unfold WikiScraper.scrape_item_page; by rewrite Hget |].
  intros response w' Hget. unfold WikiScraper.scrape_item_page. rewrite Hget.
  cbn [bind]. unfold _parse_item_data.
  destruct (infobox (content response)) as [rows |]; cbn [try_except].
  - pose proof (parse_rows_nonempty rows) as Hrows.
    case_decide as Hempty; cbn [try_except].
    + split; [| done]. intros (rows' & k & v & [= <-] & Hin).
      destruct (proj2 Hrows) as []; eauto.
    + destruct (split_last "/" url) as (seg & Hlast & _).
      unfold last_item_of. rewrite Hlast. cbn [bind try_except]. split.
      * intros _. eexists. split; [done |]. by split.
      * intros Hno. destruct Hno. apply Hrows in Hempty as (k & v & Hin).
        by exists rows, k, v.
  - split; [| done]. by intros (rows & k & v & [=] & _).
Qed.

Lemma contains_char_cons (c a : ascii) (s : string) :
  Str.contains (String c "") (String a s)
  = Ascii.eqb c a || Str.contains (String c "") s.
Proof. rewrite contains_cons. cbn [Str.startswith]. by rewrite andb_true_r. Qed.

Lemma contains_char_nil (c : ascii) : Str.contains (String c "") "" = false.
Proof. reflexivity. Qed.

(** No part of [s.split(sep)] holds the separator. *)
Lemma split_no_sep (sep : ascii) (s : string) :
  Forall (fun seg => Str.contains (String sep "") seg = false) (Str.split sep s).
Proof.
  induction s as [|a s IH]; cbn [Str.split].
  - by constructor.
  - destruct (Ascii.eqb a sep) eqn:Ha; [by constructor |].
    destruct (Str.split sep s) as [|h t].
    + constructor; [| constructor].
      by rewrite contains_char_cons, Ascii.eqb_sym, Ha.
    + apply Forall_cons in IH as [Hh Ht]. constructor; [| done].
      by rewrite contains_char_cons, Ascii.eqb_sym, Ha, Hh.
Qed.

Lemma replace_removes (a b : ascii) (s : string) :
  a <> b -> Str.contains (String a "") (Str.replace a b s) = false.
Proof.
  intros Hab. induction s as [|c s IH]; [done |]. cbn [Str.replace].
  rewrite contains_char_cons, IH, orb_false_r.
  destruct (Ascii.eqb c a) eqn:Hc; apply Ascii.eqb_neq; [done |].
  apply Ascii.eqb_neq in Hc. congruence.
Qed.

Lemma replace_keeps_absent (a b c : ascii) (s : string) :
  c <> b -> Str.contains (String c "") s = false ->
  Str.contains (String c "") (Str.replace a b s) = false.
Proof.
  intros Hcb. induction s as [|x s IH]; [done |]. cbn [Str.replace].
  rewrite !contains_char_cons. intros [Hx Hs]%orb_false_iff.
  rewrite (IH Hs), orb_false_r.
  destruct (Ascii.eqb x a); [by apply Ascii.eqb_neq | done].
Qed.

(** X3: the name of a record holds neither a slash nor an underscore. *)
Theorem record_name_chars (w w' : World) (url : string) (item : Item) :
  scrape_item_page w url = (Ok (Some item), w') ->
  ~ Str.substring_of "/" (name item) /\ ~ Str.substring_of "_" (name item).
Proof.
  intros (response & data & seg & _ & _ & _ & Hlast & ->)%scrape_item_page_some.
  cbn [name build_item]. rewrite <- !contains_spec.
  assert (Str.contains "/" seg = false) as Hseg.
  { pose proof (split_no_sep "/" url) as Hall.
    apply (proj1 (Forall_forall _ _) Hall), list_elem_of_In.
    destruct (Str.split "/" url) as [|h t] using rev_ind; [done |].
    rewrite last_snoc in Hlast. injection Hlast as ->.
    apply in_or_app. right. by left. }
  split.
  - rewrite replace_keeps_absent; [done | done | exact Hseg].
  - rewrite replace_removes; done.
Qed.

End PageRecords.

(** X3 at the page of [/Rusty_Sword]. *)
Lemma record_name_chars_rusty_sword :
  ~ Str.substring_of "/" "Rusty Sword" /\ ~ Str.substring_of "_" "Rusty Sword".
Proof.
  apply (record_name_chars unit Examples.root_link_site tt tt
           (Examples.base +:+ "/Rusty_Sword")
           (mkItem Equipment "Rusty Sword" (<["AC" := "5"]> ∅))).
  vm_compute. reflexivity.
Defined.

(** X4: in a row laid out along a class's schema the first cell is the
    page's own [Name] attribute when the infobox has one and the name
    taken from the URL otherwise; the cell of any other field is the
    attribute of that label, empty when the record has none. *)
Theorem row_of_cells (c : item_class) (item : Item) :
  row_of (FIELDS c) item !! 0%nat
  = Some (default (name item) (attributes item !! "Name"))
  /\ (forall (i : nat) (k : string),
        FIELDS c !! i = Some k -> k <> "Name" ->
        row_of (FIELDS c) item !! i = Some (default "" (attributes item !! k))).
Proof.
  assert (forall i k, FIELDS c !! i = Some k ->
            row_of (FIELDS c) item !! i = Some (default "" (to_dict item !! k)))
    as Hcell.
  { intros i k Hk. unfold row_of.
    pose proof (list_lookup_fmap (fun k => default "" (to_dict item !! k))
                  (FIELDS c) i) as Hrow.
    rewrite Hk in Hrow. exact Hrow. }
  split.
  - rewrite (Hcell 0%nat "Name") by by destruct c.
    f_equal. cbn [to_dict Item_exportable]. unfold Item_to_dict.
    destruct (attributes item !! "Name") as [v |] eqn:Hname.
    + by rewrite (lookup_union_l' _ _ _ (mk_is_Some _ _ Hname)), Hname.
    + by rewrite lookup_union_r, lookup_singleton_eq.
  - intros i k Hk Hne. rewrite (Hcell i k Hk). f_equal. f_equal.
    cbn [to_dict Item_exportable]. unfold Item_to_dict.
    destruct (attributes item !! k) as [v |] eqn:Hattr.
    + by rewrite (lookup_union_l' _ _ _ (mk_is_Some _ _ Hattr)).
    + rewrite lookup_union_r by done. by rewrite lookup_singleton_ne.
Qed.

(** ** Buckets *)

Section Buckets.

Variable output_dir : Path.

Ltac split_contains s :=
  repeat match goal with
         | |- context [Str.contains ?t s] => destruct (Str.contains t s)
         end.

Lemma weapon_token_found (s : string) :
  Str.any_in weapon_types s = true ->
  exists kv, List.find (fun kv => Str.contains (fst kv) s) WEAPONS = Some kv.
Proof.
  unfold Str.any_in, weapon_types, WEAPONS. cbn [existsb List.find fst].
  split_contains s; eauto; discriminate.
Qed.

(** X5: a record the classifier calls a weapon always gets a named weapon
    bucket, never [misc]: the bucket belongs to a token of the weapon
    table that occurs in the lower-cased [Type]. *)
Theorem classified_weapon_bucket (name : string) (item_data : gmap string string) :
  _determine_item_type item_data = "weapon" ->
  exists k f,
    (k, f) ∈ WEAPONS
    /\ Str.substring_of k (Str.lower (default "" (item_data !! "Type")))
    /\ _get_category_path output_dir
         (build_item (_determine_item_type item_data) name item_data)
       = output_dir ++ ["weapons"; f +:+ ".csv"]
    /\ f <> "misc".
Proof.
  intros Hweapon. rewrite Hweapon. unfold _determine_item_type in Hweapon.
  case_decide; [discriminate |].
  destruct (Str.any_in weapon_types _) eqn:Hany; [| discriminate].
  destruct (weapon_token_found _ Hany) as [[k f] Hfind].
  pose proof (List.find_some _ _ Hfind) as [Hin Hk]. cbn [fst] in Hk.
  exists k, f. split; [by apply list_elem_of_In |].
  split; [by apply contains_spec |]. split.
  - unfold _get_category_path. cbn [cls attributes build_item String.eqb Ascii.eqb
                                     Bool.eqb andb].
    rewrite Hfind. by rewrite <- app_assoc.
  - unfold WEAPONS in Hin. cbn [In] in Hin.
    repeat (destruct Hin as [[= <- <-] | Hin]; [discriminate |]). done.
Qed.

(** X6: every destination is one of eight files under [weapons] or one
    of sixteen under [equipment]. *)
Theorem destination_files (item : Item) :
  exists f,
    _get_category_path output_dir item
    = output_dir ++ [match cls item with
                     | Weapon => "weapons"
                     | Equipment => "equipment"
                     end; f +:+ ".csv"]
    /\ f ∈ match cls item with
           | Weapon =>
               ["1H_Weapons"; "2H_Weapons"; "Piercing"; "Blunt"; "Slashing";
                "Bows"; "Throwing"; "misc"]
           | Equipment =>
               ["Arms"; "Back"; "Chest"; "Ears"; "Face"; "Feet"; "Fingers";
                "Hands"; "Head"; "Legs"; "Neck"; "Shields"; "Shoulders";
                "Waist"; "Wrist"; "misc"]
           end.
Proof.
  unfold _get_category_path. destruct (cls item).
  - eexists. split; [by rewrite <- app_assoc |].
    unfold WEAPONS. cbn [List.find fst].
    split_contains (Str.lower (default "" (attributes item !! "Type")));
      cbn [fmap option_fmap option_map default snd];
      apply list_elem_of_In; cbn [In]; tauto.
  - eexists. split; [by rewrite <- app_assoc |].
    destruct (EQUIPMENT !! _) as [f |] eqn:Hslot; cbn [default].
    + apply elem_of_list_to_map_2 in Hslot. apply list_elem_of_In in Hslot.
      cbn [In] in Hslot. apply list_elem_of_In. cbn [In].
      repeat (destruct Hslot as [[= _ <-] | Hslot]; [tauto |]). done.
    + apply list_elem_of_In. cbn [In]. tauto.
Qed.

End Buckets.

(** X5 for the attributes [{"Type": "1H Slashing", "Damage": "7"}]. *)
Lemma classified_weapon_bucket_slashing :
  exists k f,
    (k, f) ∈ WEAPONS
    /\ Str.substring_of k
         (Str.lower (default "" (Examples.slashing_attrs !! "Type")))
    /\ _get_category_path ["output"] Examples.slashing_item
       = ["output"] ++ ["weapons"; f +:+ ".csv"]
    /\ f <> "misc".
Proof.
  apply (classified_weapon_bucket ["output"] "Rusty Sword" Examples.slashing_attrs).
  vm_compute. reflexivity.
Defined.

(** ** More on pagination *)

Section ListingPages.

Variable World : Type.
Variable session_get : World -> string -> result Response * World.
Variable base_url : string.

Local Abbreviation fetch_listing := (fetch_listing World session_get base_url).
Local Abbreviation extract_loop := (extract_loop World session_get base_url).
Local Abbreviation discovered := (discovered base_url).
Local Abbreviation _extract_category_items :=
  (_extract_category_items World session_get base_url).

(** A newly discovered link is new, and stands on the page. *)
Lemma discovered_elem (items : list (string * string)) :
  forall (links : gset string) (u text : string),
    (u, text) ∈ discovered links items ->
    (u ∉ links)
    /\ exists href, u = base_url +:+ href /\ (href, text) ∈ items
                    /\ eligible href = true.
Proof.
  induction items as [|[href t] rest IH]; intros links u text.
  - by intros ?%elem_of_nil.
  - rewrite discovered_cons.
    destruct (eligible href) eqn:Hel; cbn [andb].
    + case_bool_decide as Hnew.
      * intros [[= -> ->] | Hin]%elem_of_cons.
        -- split; [done |]. exists href. split; [done |].
           split; [apply list_elem_of_here | done].
        -- apply IH in Hin as (Hu & h & -> & Hh & Helh).
           split; [intros Hin; apply Hu, elem_of_union; by right |].
           exists h. split; [done |].
           split; [by apply list_elem_of_further | done].
      * intros (Hu & h & -> & Hh & Helh)%IH. split; [done |]. exists h.
        split; [done |]. split; [by apply list_elem_of_further | done].
    + intros (Hu & h & -> & Hh & Helh)%IH. split; [done |]. exists h.
      split; [done |]. split; [by apply list_elem_of_further | done].
Qed.

(** A turn goes on to another request only after a successful response
    that contributed a new link. *)
Lemma fetch_listing_again (w w' : World) (category_url : string)
    (links links' : gset string) (last_item last_item' : option string) :
  fetch_listing w category_url links last_item = (Again links' last_item', w') ->
  exists response items,
    session_get w (page_url category_url last_item) = (Ok response, w')
    /\ mw_content_text (content response) = Some items
    /\ discovered links items <> []
    /\ links' = list_to_set (discovered links items).*1 ∪ links.
Proof.
  unfold WikiScraper.fetch_listing.
  destruct (session_get w (page_url category_url last_item)) as [[response | e] w1];
    [| discriminate].
  destruct (negb (status_code response =? 200)%Z); [discriminate |].
  destruct (mw_content_text (content response)) as [items |] eqn:Hcontent;
    [| discriminate].
  rewrite scan_items_discovered.
  destruct (bool_decide (discovered links items = [])) eqn:Hd; [discriminate |].
  apply bool_decide_eq_false in Hd. cbn [negb].
  destruct (negb (truthy _)); [discriminate |].
  intros [= <- _ <-]. by exists response, items.
Qed.

(** Each continuing turn adds a URL of [U]. *)
Lemma extract_loop_finite_site (U : gset string) :
  (forall w url response w' items href text,
      session_get w url = (Ok response, w') ->
      mw_content_text (content response) = Some items ->
      (href, text) ∈ items -> eligible href = true ->
      base_url +:+ href ∈ U) ->
  forall (fuel : nat) (w : World) (category_url : string) (links : gset string)
         (last_item : option string),
    links ⊆ U ->
    (size (U ∖ links) < fuel)%nat ->
    exists r w' k,
      extract_loop fuel w category_url links last_item = Some (r, w', k)
      /\ (k <= S (size (U ∖ links)))%nat.
Proof.
  intros Hsite. induction fuel as [|fuel IH];
    intros w category_url links last_item Hsub Hfuel; [lia |].
  cbn [WikiScraper.extract_loop].
  destruct (fetch_listing w category_url links last_item) as [[l | l la | e] w1] eqn:Hturn.
  - eexists _, _, _. split; [done | lia].
  - apply fetch_listing_again in Hturn as (response & items & Hget & Hcontent & Hd & ->).
    assert (forall u, u ∈ (discovered links items).*1 -> u ∈ U /\ u ∉ links) as Hnew.
    { intros u ([u' text] & -> & Hin)%list_elem_of_fmap.
      apply discovered_elem in Hin as (Hu & href & -> & Hh & Hel).
      split; [by eapply Hsite | done]. }
    destruct (discovered links items) as [|[u text] d] eqn:Hdisc; [done |].
    destruct (Hnew u) as [HuU Hul]; [apply list_elem_of_here |].
    assert (size (U ∖ (list_to_set ((u, text) :: d).*1 ∪ links))
            < size (U ∖ links))%nat as Hless.
    { apply subset_size. split.
      - intros x [Hx Hout]%elem_of_difference. apply elem_of_difference.
        split; [done |]. intros Hin. apply Hout, elem_of_union. by right.
      - intros Hback.
        assert (u ∈ U ∖ links) as Hu by by apply elem_of_difference.
        apply Hback, elem_of_difference in Hu as [_ Hout]. apply Hout.
        apply elem_of_union. left. apply elem_of_list_to_set.
        apply list_elem_of_here. }
    destruct (IH w1 category_url (list_to_set ((u, text) :: d).*1 ∪ links) la)
      as (r & w2 & k & -> & Hk).
    + intros x [Hx%elem_of_list_to_set | Hx]%elem_of_union; [| by apply Hsub].
      by apply Hnew.
    + lia.
    + eexists _, _, _. split; [done | lia].
  - eexists _, _, _. split; [done | lia].
Qed.

(** X7: on a site whose listings only ever link into a finite set [U] of
    URLs, pagination returns: each continuing turn adds a URL of [U], so
    at most one request more than the URLs still missing is made. *)
Theorem finite_site_terminates (U : gset string) :
  (forall w url response w' items href text,
      session_get w url = (Ok response, w') ->
      mw_content_text (content response) = Some items ->
      (href, text) ∈ items -> eligible href = true ->
      base_url +:+ href ∈ U) ->
  forall (fuel : nat) (w : World) (category_url : string) (links : gset string)
         (last_item : option string),
    links ⊆ U ->
    (size (U ∖ links) < fuel)%nat ->
    exists r w' k,
      extract_loop fuel w category_url links last_item = Some (r, w', k)
      /\ (k <= S (size (U ∖ links)))%nat.
Proof. apply extract_loop_finite_site. Qed.

(** X8: the URLs a category crawl returns are pairwise different, and
    each is the base URL followed by a path that starts with a slash and
    holds none of the markers. *)
Theorem extracted_urls_shape (fuel : nat) (w w' : World) (category_url : string)
    (urls : list string) :
  _extract_category_items fuel w category_url = Some (urls, w') ->
  NoDup urls
  /\ forall u, u ∈ urls ->
       exists href,
         u = base_url +:+ href
         /\ Str.startswith href "/" = true
         /\ forall m, m ∈ namespace_markers -> ~ Str.substring_of m href.
Proof.
  unfold WikiScraper._extract_category_items.
  destruct (extract_loop fuel w category_url ∅ None) as [[[[links | e] w1] k] |] eqn:Hrun;
    [| | done].
  - intros [= <- _]. split; [apply NoDup_elements |].
    intros u Hu%elem_of_elements.
    assert (links_eligible base_url ∅) as H0
      by (intros x Hx; by apply not_elem_of_empty in Hx).
    destruct (extract_loop_eligible _ _ _ _ _ _ _ _ _ _ _ H0 Hrun _ Hu)
      as (href & -> & Hel).
    exists href. split; [done |]. unfold eligible in Hel.
    apply andb_true_iff in Hel as [Hmark Hslash]. split; [done |].
    intros m Hm Hsub. apply negb_true_iff, any_in_false in Hmark.
    apply Hmark. by exists m.
  - intros [= <- _]. split; [constructor |]. by intros u ?%elem_of_nil.
Qed.

End ListingPages.

(** ** Failures of listing pages *)

Section ListingFailures.

Variable World : Type.
Variable session_get : World -> string -> result Response * World.
Variable base_url : string.
Variable output_dir : Path.

Local Abbreviation fetch_listing := (fetch_listing World session_get base_url).
Local Abbreviation discovered := (discovered base_url).
Local Abbreviation _extract_category_items :=
  (_extract_category_items World session_get base_url).

Lemma page_url_cursor (category_url cursor : string) :
  cursor <> "" ->
  page_url category_url (Some cursor) = category_url +:+ "?pagefrom=" +:+ cursor.
Proof. by destruct cursor. Qed.

(** The first turn on a page with new links and a cursor. *)
Lemma first_turn_again (w w1 : World) (category_url cursor : string)
    (response : Response) (items : list (string * string)) :
  session_get w category_url = (Ok response, w1) ->
  status_code response = 200%Z ->
  mw_content_text (content response) = Some items ->
  snd <$> last (discovered ∅ items) = Some cursor ->
  cursor <> "" ->
  fetch_listing w category_url ∅ None
  = (Again (list_to_set (discovered ∅ items).*1) (Some cursor), w1).
Proof.
  intros Hget Hstatus Hcontent Hlast Hcursor.
  rewrite (fetch_listing_ok World session_get base_url w w1 category_url ∅ None
             response items Hget Hstatus Hcontent).
  destruct (discovered ∅ items) as [|p d] eqn:Hd; [done |].
  cbv zeta. rewrite Hlast, (right_id_L ∅ (∪)). by destruct cursor.
Qed.

(** X9: when the second listing request gets a non-success status, the
    crawl of the category returns the links of the first page. *)
Theorem later_status_keeps_links (w w1 w2 : World) (category_url cursor : string)
    (first later : Response) (items : list (string * string)) :
  session_get w category_url = (Ok first, w1) ->
  status_code first = 200%Z ->
  mw_content_text (content first) = Some items ->
  snd <$> last (discovered ∅ items) = Some cursor ->
  cursor <> "" ->
  session_get w1 (category_url +:+ "?pagefrom=" +:+ cursor) = (Ok later, w2) ->
  status_code later <> 200%Z ->
  forall fuel,
    _extract_category_items (S (S fuel)) w category_url
    = Some (elements (list_to_set (C := gset string) (discovered ∅ items).*1), w2).
Proof.
  intros Hget Hstatus Hcontent Hlast Hcursor Hget2 Hstatus2 fuel.
  unfold WikiScraper._extract_category_items. cbn [extract_loop].
  rewrite (first_turn_again _ _ _ _ _ _ Hget Hstatus Hcontent Hlast Hcursor).
  unfold WikiScraper.fetch_listing. rewrite (page_url_cursor _ _ Hcursor), Hget2.
  apply Z.eqb_neq in Hstatus2. by rewrite Hstatus2.
Qed.

(** X10: when the second listing request raises, the crawl of the
    category returns no link at all: the links of the first page are
    lost with the exception. *)
Theorem later_exception_drops_links (w w1 w2 : World) (category_url cursor : string)
    (first : Response) (items : list (string * string)) (e : exn) :
  session_get w category_url = (Ok first, w1) ->
  status_code first = 200%Z ->
  mw_content_text (content first) = Some items ->
  snd <$> last (discovered ∅ items) = Some cursor ->
  cursor <> "" ->
  session_get w1 (category_url +:+ "?pagefrom=" +:+ cursor) = (Raise e, w2) ->
  forall fuel,
    _extract_category_items (S (S fuel)) w category_url = Some ([], w2).
Proof.
  intros Hget Hstatus Hcontent Hlast Hcursor Hget2 fuel.
  unfold WikiScraper._extract_category_items. cbn [extract_loop].
  rewrite (first_turn_again _ _ _ _ _ _ Hget Hstatus Hcontent Hlast Hcursor).
  unfold WikiScraper.fetch_listing. by rewrite (page_url_cursor _ _ Hcursor), Hget2.
Qed.

(** X11: a category whose first listing request raises, gets a
    non-success status or has no content region yields no record: nothing
    is scraped, written or recorded as failed. *)
Theorem listing_failure_empty_category (fuel : nat) (s : Scraper World)
    (category_url : string) :
  match fst (session_get (world s) category_url) with
  | Raise _ => True
  | Ok response =>
      status_code response <> 200%Z \/ mw_content_text (content response) = None
  end ->
  scrape_category World session_get base_url output_dir (S fuel) s category_url
  = Some ([], mkScraper (snd (session_get (world s) category_url))
                        (failed_items s) (files s)).
Proof.
  unfold scrape_category, WikiScraper._extract_category_items.
  cbn [extract_loop]. unfold WikiScraper.fetch_listing.
  change (page_url category_url None) with category_url.
  destruct (session_get (world s) category_url) as [[response | e] w1]; cbn [fst snd].
  - intros [Hstatus%Z.eqb_neq | Hcontent].
    + rewrite Hstatus. cbn [negb]. by rewrite elements_empty.
    + destruct (negb _); [by rewrite elements_empty |].
      rewrite Hcontent. by rewrite elements_empty.
  - done.
Qed.

End ListingFailures.

(** X9 at a site that answers the second request with status 404. *)
Lemma later_status_keeps_links_not_found :
  WikiScraper._extract_category_items nat
    (Examples.counting_site (Ok Examples.not_found)) Examples.base 2 0%nat
    Examples.listing_url
  = Some (elements
            (list_to_set (C := gset string)
               (discovered Examples.base ∅
                  [("/Rusty_Sword", "Rusty Sword"); ("/Bronze_Helm", "Bronze Helm")]).*1),
          2%nat).
Proof.
  apply (later_status_keeps_links nat (Examples.counting_site (Ok Examples.not_found))
           Examples.base 0%nat 1%nat 2%nat Examples.listing_url "Bronze Helm"
           Examples.first_page Examples.not_found
           [("/Rusty_Sword", "Rusty Sword"); ("/Bronze_Helm", "Bronze Helm")]).
  - reflexivity.
  - reflexivity.
  - reflexivity.
  - vm_compute. reflexivity.
  - discriminate.
  - reflexivity.
  - discriminate.
Defined.

(** X10 at a site whose second request cannot be answered. *)
Lemma later_exception_drops_links_connection_error :
  WikiScraper._extract_category_items nat
    (Examples.counting_site (Raise ConnectionError)) Examples.base 2 0%nat
    Examples.listing_url
  = Some ([], 2%nat).
Proof.
  apply (later_exception_drops_links nat
           (Examples.counting_site (Raise ConnectionError))
           Examples.base 0%nat 1%nat 2%nat Examples.listing_url "Bronze Helm"
           Examples.first_page
           [("/Rusty_Sword", "Rusty Sword"); ("/Bronze_Helm", "Bronze Helm")]
           ConnectionError).
  - reflexivity.
  - reflexivity.
  - reflexivity.
  - vm_compute. reflexivity.
  - discriminate.
  - reflexivity.
Defined.

(** X11 at a category whose listing cannot be reached. *)
Lemma listing_failure_empty_category_unreachable :
  scrape_category unit Examples.unreachable_site Examples.base ["output"] 1
    Examples.fresh (Examples.base +:+ "/Category:Arms")
  = Some ([], mkScraper
                (snd (Examples.unreachable_site (world Examples.fresh)
                        (Examples.base +:+ "/Category:Arms")))
                (failed_items Examples.fresh) (files Examples.fresh)).
Proof.
  apply (listing_failure_empty_category unit Examples.unreachable_site
           Examples.base ["output"] 0%nat Examples.fresh
           (Examples.base +:+ "/Category:Arms")).
  vm_compute. exact I.
Defined.

(** X7 at the site whose listings all link to [/Rusty_Sword]. *)
Lemma finite_site_terminates_one_item :
  exists r w' k,
    extract_loop unit Examples.unreachable_site Examples.base 2 tt
      Examples.listing_url ∅ None = Some (r, w', k)
    /\ (k <= S (size ({[Examples.base +:+ "/Rusty_Sword"]} ∖ (∅ : gset string))))%nat.
Proof.
  apply (finite_site_terminates unit Examples.unreachable_site Examples.base
           {[Examples.base +:+ "/Rusty_Sword"]}).
  - intros w url response w' items href text Hget Hcontent Hin _.
    unfold Examples.unreachable_site in Hget.
    destruct (Str.startswith url Examples.listing_url); [| discriminate].
    injection Hget as <- _. cbn in Hcontent. injection Hcontent as <-.
    apply list_elem_of_singleton in Hin. injection Hin as -> _.
    by apply elem_of_singleton.
  - apply empty_subseteq.
  - vm_compute. lia.
Defined.

(** X8 at the same site. *)
Lemma extracted_urls_shape_one_item :
  NoDup [Examples.base +:+ "/Rusty_Sword"]
  /\ forall u, u ∈ [Examples.base +:+ "/Rusty_Sword"] ->
       exists href,
         u = Examples.base +:+ href
         /\ Str.startswith href "/" = true
         /\ forall m, m ∈ namespace_markers -> ~ Str.substring_of m href.
Proof.
  apply (extracted_urls_shape unit Examples.unreachable_site Examples.base
           2%nat tt tt Examples.listing_url).
  vm_compute. reflexivity.
Defined.

(** ** The records of a category *)

Section CategoryRecords.

Variable World : Type.
Variable session_get : World -> string -> result Response * World.
Variable base_url : string.
Variable output_dir : Path.

Local Abbreviation scrape_item_page := (scrape_item_page World session_get).
Local Abbreviation scrape_urls := (scrape_urls World session_get).
Local Abbreviation scrape_items := (scrape_items World session_get output_dir).
Local Abbreviation scrape_category :=
  (scrape_category World session_get base_url output_dir).
Local Abbreviation scraped_from := (scraped_from World session_get).

Lemma scraped_from_further (url : string) (urls : list string) (item : Item) :
  scraped_from urls item -> scraped_from (url :: urls) item.
Proof.
  intros (Hattr & u & w & w1 & Hin & Hcat & Hpage). split; [done |].
  exists u, w, w1. split; [by apply list_elem_of_further | done].
Qed.

Lemma scrape_urls_spec (urls : list string) :
  forall (s : Scraper World) (items0 : list Item),
    exists new,
      fst (scrape_urls s urls items0) = items0 ++ new
      /\ files (snd (scrape_urls s urls items0)) = files s
      /\ length new <= length urls
      /\ Forall (scraped_from urls) new.
Proof.
  induction urls as [|url rest IH]; intros s items0; cbn [WikiScraper.scrape_urls].
  - exists []. by rewrite app_nil_r.
  - assert (forall s' items',
              files s' = files s ->
              exists new,
                fst (scrape_urls s' rest items') = items' ++ new
                /\ files (snd (scrape_urls s' rest items')) = files s
                /\ length new <= length (url :: rest)
                /\ Forall (scraped_from (url :: rest)) new) as IH'.
    { intros s' items' Hs'. destruct (IH s' items') as (new & H1 & H2 & H3 & H4).
      exists new. split; [done |]. split; [congruence |]. split; [cbn; lia |].
      eapply Forall_impl; [exact H4 |]. intros item. apply scraped_from_further. }
    destruct (Str.contains "Category:" url) eqn:Hcat; [by apply IH' |].
    destruct (WikiScraper.scrape_item_page World session_get (world s) url)
      as [[[it |] | e] w1] eqn:Hpage; try by apply IH'.
    case_decide as Hattr; [by apply IH' |].
    destruct (IH (mkScraper w1 (failed_items s) (files s)) (items0 ++ [it]))
      as (new & H1 & H2 & H3 & H4).
    exists (it :: new). split; [by rewrite H1, <- app_assoc |].
    split; [done |]. split; [cbn; lia |]. constructor.
    + split; [done |]. exists url, (world s), w1. split; [apply list_elem_of_here |].
      split; [| done]. intros Hsub%contains_spec. congruence.
    + eapply Forall_impl; [exact H4 |]. intros item. apply scraped_from_further.
Qed.

(** [scrape_category] is the pagination followed by [scrape_items] on
    the URLs it returned. *)
Lemma scrape_category_scrape_items (fuel : nat) (s : Scraper World)
    (category_url : string) (urls : list string) (w' : World) :
  _extract_category_items World session_get base_url fuel (world s) category_url
    = Some (urls, w') ->
  scrape_category fuel s category_url
  = Some (scrape_items (mkScraper w' (failed_items s) (files s)) urls).
Proof.
  intros Hurls. unfold WikiScraper.scrape_category, WikiScraper.scrape_items.
  rewrite Hurls. destruct urls as [|url urls]; [done |].
  destruct (WikiScraper.scrape_urls _ _ _ _ _) as [[|it its] s2]; [done |].
  by destruct (_export_items _ _ _) as [[u | e] fs'].
Qed.

Lemma scrape_items_facts (s s' : Scraper World) (urls : list string)
    (items : list Item) :
  scrape_items s urls = (items, s') ->
  length items <= length urls
  /\ Forall (scraped_from urls) items
  /\ (items <> [] -> _export_items output_dir (files s) items = (Ok tt, files s'))
  /\ failed_items s' = failed_items s.
Proof.
  unfold WikiScraper.scrape_items.
  destruct (scrape_urls_spec urls s []) as (new & Hnew & Hfiles & Hlen & Hfrom).
  pose proof (scrape_urls_failed_items World session_get urls s []) as Hfailed.
  destruct (WikiScraper.scrape_urls World session_get s urls []) as [its s1].
  cbn [fst snd app] in *. subst its.
  destruct new as [|it new].
  - intros [= <- <-]. split; [cbn; lia |]. split; [constructor |]. by split.
  - rewrite Hfiles.
    destruct (_export_items output_dir (files s) (it :: new)) as [[[] | e] fs'] eqn:Hexp;
      intros [= <- <-]; cbn [files failed_items].
    + split; [done |]. split; [done |]. by split.
    + split; [cbn; lia |]. split; [constructor |]. by split.
Qed.

(** X12: the records [scrape_items] returns are at most as many as the
    URLs, each comes from a page whose URL has no [Category:] in it and
    has attributes; when it returns any, the export of exactly these
    records has succeeded and made the files; and it never adds to
    [failed_items]. *)
Theorem scrape_items_result (s s' : Scraper World) (urls : list string)
    (items : list Item) :
  scrape_items s urls = (items, s') ->
  length items <= length urls
  /\ Forall (scraped_from urls) items
  /\ (items <> [] -> _export_items output_dir (files s) items = (Ok tt, files s'))
  /\ failed_items s' = failed_items s.
Proof. apply scrape_items_facts. Qed.

(** X13: [scrape_category] returns what [scrape_items] returns on the
    URLs of the pagination, so its records have the same properties;
    a category without URLs gives no record and writes nothing. *)
Theorem scrape_category_result (fuel : nat) (s s' : Scraper World)
    (category_url : string) (items : list Item) :
  scrape_category fuel s category_url = Some (items, s') ->
  exists urls w',
    _extract_category_items World session_get base_url fuel (world s) category_url
      = Some (urls, w')
    /\ scrape_items (mkScraper w' (failed_items s) (files s)) urls = (items, s')
    /\ length items <= length urls
    /\ Forall (scraped_from urls) items
    /\ (items <> [] -> _export_items output_dir (files s) items = (Ok tt, files s'))
    /\ (urls = [] -> items = [] /\ files s' = files s).
Proof.
  intros Hcat.
  destruct (_extract_category_items World session_get base_url fuel (world s)
              category_url) as [[urls w'] |] eqn:Hurls.
  - rewrite (scrape_category_scrape_items _ _ _ _ _ Hurls) in Hcat.
    injection Hcat as Hitems. exists urls, w'. split; [done |]. split; [done |].
    destruct (scrape_items_facts _ _ _ _ Hitems) as (Hlen & Hfrom & Hexp & _).
    split; [done |]. split; [done |]. split; [done |].
    intros ->. cbn in Hitems. by injection Hitems as <- <-.
  - unfold WikiScraper.scrape_category in Hcat. by rewrite Hurls in Hcat.
Qed.

End CategoryRecords.

(** X12 at two URLs, one of them a category page, on a site whose every
    page has an infobox. *)
Lemma scrape_items_result_two_urls :
  let run :=
    scrape_items unit Examples.root_link_site ["output"] Examples.fresh
      [Examples.base +:+ "/Rusty_Sword"; Examples.base +:+ "/Category:Arms"] in
  length (fst run) <= 2
  /\ Forall (scraped_from unit Examples.root_link_site
               [Examples.base +:+ "/Rusty_Sword"; Examples.base +:+ "/Category:Arms"])
            (fst run)
  /\ (fst run <> [] ->
      _export_items ["output"] (files Examples.fresh) (fst run)
      = (Ok tt, files (snd run)))
  /\ failed_items (snd run) = failed_items Examples.fresh.
Proof.
  cbv zeta.
  apply (scrape_items_result unit Examples.root_link_site ["output"]
           Examples.fresh _
           [Examples.base +:+ "/Rusty_Sword"; Examples.base +:+ "/Category:Arms"]).
  apply surjective_pairing.
Defined.

(** X13 at the category of the site whose listings link to the root. *)
Lemma scrape_category_result_root_link :
  let run :=
    default ([], Examples.fresh)
      (scrape_category unit Examples.root_link_site Examples.base ["output"] 2
         Examples.fresh Examples.listing_url) in
  exists urls w',
    WikiScraper._extract_category_items unit Examples.root_link_site Examples.base 2
      (world Examples.fresh) Examples.listing_url = Some (urls, w')
    /\ scrape_items unit Examples.root_link_site ["output"]
         (mkScraper w' (failed_items Examples.fresh) (files Examples.fresh)) urls
       = (fst run, snd run)
    /\ length (fst run) <= length urls
    /\ Forall (scraped_from unit Examples.root_link_site urls) (fst run)
    /\ (fst run <> [] ->
        _export_items ["output"] (files Examples.fresh) (fst run)
        = (Ok tt, files (snd run)))
    /\ (urls = [] -> fst run = [] /\ files (snd run) = files Examples.fresh).
Proof.
  cbv zeta.
  apply (scrape_category_result unit Examples.root_link_site Examples.base
           ["output"] 2%nat Examples.fresh).
  vm_compute. reflexivity.
Defined.

(** ** When the batch export succeeds *)

Section ExportOutcome.

Variable output_dir : Path.

(** The rows of a group are all written, or one of the records has a
    field outside [fields] and the writer raises [ValueError]. *)
Lemma write_rows_cases (fields : list string) (its : list Item) :
  forall written : list row,
    (Forall (fun it => Csv.wrong_fields fields (to_dict it) = []) its
     /\ fst (write_rows fields its written) = Ok tt)
    \/ (Exists (fun it => Csv.wrong_fields fields (to_dict it) <> []) its
        /\ fst (write_rows fields its written) = Raise ValueError).
Proof.
  induction its as [|it its IH]; intros written; cbn [write_rows].
  - left. by split.
  - unfold Csv.dict_to_list.
    destruct (Csv.wrong_fields fields (to_dict it)) as [|k ks] eqn:Hw.
    + destruct (IH (written ++ [map (fun k => default "" (to_dict it !! k)) fields]))
        as [[Hall Hok] | [Hex Hraise]].
      * left. split; [by constructor | done].
      * right. split; [by apply Exists_cons_tl | done].
    + right. split; [| done]. apply Exists_cons_hd. by rewrite Hw.
Qed.

Lemma export_categories_cases (categorized : list (Path * list Item)) :
  forall fs : FS,
    Forall (fun g => snd g <> []) categorized ->
    (Forall (fun g => forall first, head (snd g) = Some first ->
                        Forall (fun it => Csv.wrong_fields (FIELDS (cls first))
                                            (to_dict it) = []) (snd g))
            categorized
     /\ fst (export_categories fs categorized) = Ok tt)
    \/ (Exists (fun g => exists first,
                           head (snd g) = Some first
                           /\ Exists (fun it => Csv.wrong_fields (FIELDS (cls first))
                                                  (to_dict it) <> []) (snd g))
               categorized
        /\ fst (export_categories fs categorized) = Raise ValueError).
Proof.
  induction categorized as [|[p its] rest IH]; intros fs Hne;
    cbn [export_categories].
  - left. by split.
  - apply Forall_cons in Hne as [Hits Hne]. cbn [snd] in Hits.
    destruct its as [|first others]; [done |]. unfold export_category.
    change (match cls first with
            | Weapon => Weapon_FIELDS
            | Equipment => Equipment_FIELDS
            end) with (FIELDS (cls first)).
    destruct (write_rows_cases (FIELDS (cls first)) (first :: others)
                [Csv.header (FIELDS (cls first))]) as [[Hall Hok] | [Hex Hraise]];
      destruct (write_rows _ _ _) as [r rows]; cbn [fst] in *; subst r.
    + destruct (IH (<[p := rows]> fs) Hne) as [[Hall' Hok'] | [Hex' Hraise']].
      * left. split; [| done]. constructor; [| done].
        cbn [snd head]. by intros f [= <-].
      * right. split; [by apply Exists_cons_tl | done].
    + right. split; [| done]. apply Exists_cons_hd. by exists first.
Qed.

(** Every record of the batch is in the group of its destination. *)
Lemma item_in_group (items : list Item) (item : Item) :
  item ∈ items ->
  exists its,
    (_get_category_path output_dir item, its) ∈ categorize output_dir items
    /\ item ∈ its.
Proof.
  intros Hin.
  assert (item ∈ filter (fun x => _get_category_path output_dir x
                                  = _get_category_path output_dir item) items) as Hf
    by by apply list_elem_of_filter.
  eexists. split; [| exact Hf]. apply elem_of_categorize. split; [| done].
  intros Hnil. rewrite Hnil in Hf. by apply elem_of_nil in Hf.
Qed.

(** X14: the batch export succeeds exactly when every record's keys
    (its attributes and [Name]) are columns of the schema of its class;
    otherwise it raises [ValueError]. *)
Theorem export_items_outcome (fs : FS) (items : list Item) :
  (Forall conforming items -> fst (_export_items output_dir fs items) = Ok tt)
  /\ (~ Forall conforming items ->
      fst (_export_items output_dir fs items) = Raise ValueError).
Proof.
  split.
  - intros Hconf. unfold _export_items.
    destruct (export_categories_cases (categorize output_dir items) fs)
      as [[_ Hok] | [Hex _]]; [| done |].
    + apply Forall_forall. intros [p its] [Hne _]%elem_of_categorize. done.
    + apply Exists_exists in Hex as ([p its] & Hg & first & Hfirst & Hbad).
      cbn [snd] in *.
      destruct its as [|first' others]; [done |]. injection Hfirst as ->.
      apply Exists_exists in Hbad as (item & Hitem & Hwrong).
      destruct Hwrong.
      rewrite <- (group_same_class output_dir _ _ _ _ Hg item Hitem).
      apply wrong_fields_nil.
      destruct (group_members output_dir _ _ _ Hg item Hitem) as [Hin _].
      exact (proj1 (Forall_forall _ _) Hconf item Hin).
  - intros Hnot. unfold _export_items.
    destruct (export_categories_cases (categorize output_dir items) fs)
      as [[Hall _] | [_ Hraise]]; [| | done].
    + apply Forall_forall. intros [p its] [Hne _]%elem_of_categorize. done.
    + destruct Hnot. apply Forall_forall. intros item Hin.
      destruct (item_in_group items item Hin) as (its & Hg & Hitem).
      destruct its as [|first others]; [by apply elem_of_nil in Hitem |].
      pose proof (proj1 (Forall_forall _ _) Hall _ Hg first eq_refl) as Hrows.
      cbn [snd] in Hrows.
      pose proof (proj1 (Forall_forall _ _) Hrows item Hitem) as Hok.
      rewrite <- (group_same_class output_dir _ _ _ _ Hg item Hitem) in Hok.
      exact (proj1 (wrong_fields_nil _ _) Hok).
Qed.

(** X16: every file the batch export has touched is rectangular: it
    starts with the header of a class, and each row below has as many
    cells as the header; there are at most as many rows as records. *)
Theorem exported_files_rectangular (fs fs' : FS) (items : list Item)
    (r : result unit) (p : Path) :
  _export_items output_dir fs items = (r, fs') ->
  fs' !! p = fs !! p
  \/ exists c rows,
       fs' !! p = Some (FIELDS c :: rows)
       /\ Forall (fun cells => length cells = length (FIELDS c)) rows
       /\ length rows <= length items.
Proof.
  intros Hrun. unfold _export_items in Hrun.
  destruct (export_categories_files _ _ _ _ p Hrun)
    as [-> | (first & others & done & Hg & Hpre & ->)]; [by left |].
  right. exists (cls first), (map (row_of (FIELDS (cls first))) done).
  split; [done |]. split.
  - apply Forall_forall. intros cells (it & <- & _)%list_elem_of_In%in_map_iff.
    unfold row_of. by rewrite length_map.
  - rewrite length_map. apply elem_of_categorize in Hg as [_ Hg].
    destruct Hpre as [k Hk]. rewrite Hg in Hk.
    pose proof (length_filter (fun item => _get_category_path output_dir item = p) items)
      as Hlen.
    rewrite Hk, length_app in Hlen. lia.
Qed.

End ExportOutcome.

Lemma conforming_wrong_fields (item : Item) :
  Csv.wrong_fields (FIELDS (cls item)) (to_dict item) = [] -> conforming item.
Proof. exact (proj1 (wrong_fields_nil (FIELDS (cls item)) (to_dict item))). Qed.

(** X15 on a weapon and an equipment record without a slot. *)
Lemma export_items_conforming_two_records :
  exists fs',
    _export_items ["output"] ∅ [Examples.slashing_item; Examples.cloak_item]
    = (Ok tt, fs')
    /\ (forall p,
          fs' !! p
          = match filter (fun item => _get_category_path ["output"] item = p)
                         [Examples.slashing_item; Examples.cloak_item] with
            | [] => (∅ : FS) !! p
            | first :: others =>
                Some (FIELDS (cls first)
                        :: map (row_of (FIELDS (cls first))) (first :: others))
            end)
    /\ data_rows fs'
         (map fst (categorize ["output"]
                     [Examples.slashing_item; Examples.cloak_item]))
       = length [Examples.slashing_item; Examples.cloak_item].
Proof.
  apply (export_items_conforming ["output"] ∅
           [Examples.slashing_item; Examples.cloak_item]).
  apply Forall_cons. split; [| apply Forall_cons; split; [| constructor]];
    apply conforming_wrong_fields; vm_compute; reflexivity.
Defined.

(** X16 on the batch of the helm, whose export raises. *)
Lemma exported_files_rectangular_helm :
  snd (_export_items ["output"] ∅ [Examples.helm_item])
    !! ["output"; "equipment"; "Head.csv"]
  = (∅ : FS) !! ["output"; "equipment"; "Head.csv"]
  \/ exists c rows,
       snd (_export_items ["output"] ∅ [Examples.helm_item])
         !! ["output"; "equipment"; "Head.csv"] = Some (FIELDS c :: rows)
       /\ Forall (fun cells => length cells = length (FIELDS c)) rows
       /\ length rows <= length [Examples.helm_item].
Proof.
  apply (exported_files_rectangular ["output"] ∅ _ [Examples.helm_item]
           (fst (_export_items ["output"] ∅ [Examples.helm_item]))).
  apply surjective_pairing.
Defined.

(** ** The append primitive *)

Section Append.

Context {I : Type} `{Exportable I}.

(** X17: two appends to a file that is absent or empty leave the header
    of the first record's class, written once, and the two rows, each
    laid out along the schema of its own record's class. *)
Theorem export_item_twice (base_path : Path) (fs : FS) (a b : I)
    (filename : string) (row_a row_b : row) :
  default [] (fs !! (base_path ++ [filename])) = [] ->
  Csv.dict_to_list (class_FIELDS a) (to_dict a) = Ok row_a ->
  Csv.dict_to_list (class_FIELDS b) (to_dict b) = Ok row_b ->
  Exporters.export_item base_path
    (snd (Exporters.export_item base_path fs a filename)) b filename
  = (Ok tt, <[base_path ++ [filename] := [class_FIELDS a; row_a; row_b]]> fs).
Proof.
  intros Hempty Ha Hb. unfold Exporters.export_item. cbv zeta.
  unfold Path, row in *. rewrite Ha, Hempty. cbn [snd app]. rewrite lookup_insert_eq, Hb.
  cbn [default app]. unfold Csv.header. by rewrite insert_insert_eq.
Qed.

End Append.

(** X17 for a weapon and then an equipment record of models.py: the
    equipment row stands under the weapon header. *)
Lemma export_item_twice_mixed_classes :
  @Exporters.export_item Models.Item Models.Item_exportable ["output"]
    (snd (@Exporters.export_item Models.Item Models.Item_exportable ["output"] ∅
            Examples.models_sword "items.csv"))
    Examples.models_helm "items.csv"
  = (Ok tt,
     <[["output"] ++ ["items.csv"] :=
         [Models.Weapon_FIELDS;
          map (fun k => default "" (Models.Item_to_dict Examples.models_sword !! k))
              Models.Weapon_FIELDS;
          map (fun k => default "" (Models.Item_to_dict Examples.models_helm !! k))
              Models.Equipment_FIELDS]]> ∅).
Proof.
  apply (@export_item_twice Models.Item Models.Item_exportable ["output"] ∅
           Examples.models_sword Examples.models_helm "items.csv").
  - reflexivity.
  - vm_compute. reflexivity.
  - vm_compute. reflexivity.
Defined.

(** ** Trimmed cells *)

Section Trimmed.

Lemma lstrip_head (s : string) :
  match Str.lstrip s with
  | EmptyString => True
  | String c _ => Str.is_space c = false
  end.
Proof.
  induction s as [|c s IH]; cbn [Str.lstrip]; [done |].
  by destruct (Str.is_space c) eqn:Hc.
Qed.

Lemma rstrip_idemp (s : string) : Str.rstrip (Str.rstrip s) = Str.rstrip s.
Proof.
  induction s as [|c s IH]; [done |]. cbn [Str.rstrip].
  destruct (Str.rstrip s) as [|d r] eqn:Hr.
  - destruct (Str.is_space c) eqn:Hc; [done |]. cbn [Str.rstrip]. by rewrite Hc.
  - cbn [Str.rstrip] in *. by rewrite IH.
Qed.

Lemma rstrip_head (s : string) (c : ascii) (t : string) :
  Str.rstrip s = String c t -> exists t', s = String c t'.
Proof.
  destruct s as [|a s]; [done |]. cbn [Str.rstrip].
  destruct (Str.rstrip s); [destruct (Str.is_space a) |]; intros [= <- _]; eauto.
Qed.

Lemma strip_idemp (s : string) : Str.strip (Str.strip s) = Str.strip s.
Proof.
  unfold Str.strip.
  assert (Str.lstrip (Str.rstrip (Str.lstrip s)) = Str.rstrip (Str.lstrip s)) as ->.
  { pose proof (lstrip_head s) as Hhead.
    destruct (Str.rstrip (Str.lstrip s)) as [|c t] eqn:Hr; [done |].
    destruct (rstrip_head _ _ _ Hr) as [t' Ht']. rewrite Ht' in Hhead.
    cbn [Str.lstrip]. by rewrite Hhead. }
  apply rstrip_idemp.
Qed.

(** X18: the labels and the values of the parsed attributes carry no
    surrounding white space. *)
Theorem parsed_cells_trimmed (soup : Soup) (data : gmap string string)
    (key value : string) :
  _parse_item_data soup = Some data ->
  data !! key = Some value ->
  Str.strip key = key /\ Str.strip value = value.
Proof.
  unfold _parse_item_data. destruct (infobox soup) as [rows |]; [| done].
  intros [= <-]. rewrite parse_rows_lookup. intros Hlast.
  assert (value ∈ omap (row_value key) rows) as Hin.
  { destruct (omap (row_value key) rows) as [|y l] using rev_ind; [done |].
    rewrite last_snoc in Hlast. injection Hlast as ->.
    apply elem_of_app. right. apply list_elem_of_here. }
  apply list_elem_of_omap in Hin as (cols & _ & Hrow).
  destruct cols as [|k [|v [|x cols]]]; try done. unfold row_value in Hrow.
  case_decide as Hk; [| done]. injection Hrow as <-. subst key.
  by rewrite !strip_idemp.
Qed.

End Trimmed.

(** X18 on an infobox whose cells are padded. *)
Lemma parsed_cells_trimmed_padded :
  Str.strip "Type" = "Type" /\ Str.strip "1H Slashing" = "1H Slashing".
Proof.
  apply (parsed_cells_trimmed
           (mkSoup None (Some [["  Type "; " 1H Slashing  "]; ["one cell"]]))
           (<["Type" := "1H Slashing"]> ∅)).
  - vm_compute. reflexivity.
  - reflexivity.
Defined.

(** ** The whole crawl *)

Section WholeCrawl.

Variable World : Type.
Variable session_get : World -> string -> result Response * World.
Variable base_url : string.
Variable output_dir : Path.

(** Once the pagination has returned, [scrape_category] returns. *)
Lemma scrape_category_returns (fuel : nat) (s : Scraper World)
    (category_url : string) (urls : list string) (w' : World) :
  _extract_category_items World session_get base_url fuel (world s) category_url
    = Some (urls, w') ->
  exists items s',
    scrape_category World session_get base_url output_dir fuel s category_url
    = Some (items, s').
Proof.
  intros Hurls.
  rewrite (scrape_category_scrape_items World session_get base_url output_dir
             _ _ _ _ _ Hurls).
  destruct (scrape_items _ _ _ _ _) as [items s']. by exists items, s'.
Qed.

Lemma crawl_finite_site (U : gset string) (fuel : nat) :
  (forall w url response w' items href text,
      session_get w url = (Ok response, w') ->
      mw_content_text (content response) = Some items ->
      (href, text) ∈ items -> eligible href = true ->
      base_url +:+ href ∈ U) ->
  (size U < fuel)%nat ->
  forall (cats : list string) (s : Scraper World) (all_items : list Item),
    exists items s',
      crawl World session_get base_url output_dir fuel s cats all_items
      = Some (items, s').
Proof.
  intros Hsite Hfuel. induction cats as [|category rest IH]; intros s all_items;
    cbn [crawl].
  - by eexists _, _.
  - destruct (extract_loop_finite_site World session_get base_url U Hsite fuel
                (world s) (base_url +:+ category) ∅ None)
      as (r & w' & k & Hloop & _).
    + apply empty_subseteq.
    + by rewrite difference_empty_L.
    + assert (exists urls,
                 _extract_category_items World session_get base_url fuel (world s)
                   (base_url +:+ category) = Some (urls, w')) as [urls Hurls].
      { unfold _extract_category_items. rewrite Hloop. destruct r; eauto. }
      destruct (scrape_category_returns _ _ _ _ _ Hurls) as (items & s1 & ->).
      apply IH.
Qed.

(** X19: on a site whose listings only ever link into a finite set [U]
    of URLs, the crawl of all categories returns, whatever the transport
    does on the way, as soon as each category may take more turns than
    [U] has URLs. *)
Theorem crawl_categories_terminates (U : gset string) (fuel : nat)
    (s : Scraper World) :
  (forall w url response w' items href text,
      session_get w url = (Ok response, w') ->
      mw_content_text (content response) = Some items ->
      (href, text) ∈ items -> eligible href = true ->
      base_url +:+ href ∈ U) ->
  (size U < fuel)%nat ->
  exists items s',
    crawl_categories World session_get base_url output_dir fuel s = Some (items, s').
Proof. intros Hsite Hfuel. by apply (crawl_finite_site U). Qed.

End WholeCrawl.

(** X19 at the site whose listings all link to [/Rusty_Sword]. *)
Lemma crawl_categories_terminates_one_item :
  exists items s',
    crawl_categories unit Examples.unreachable_site Examples.base ["output"] 2
      Examples.fresh = Some (items, s').
Proof.
  apply (crawl_categories_terminates unit Examples.unreachable_site Examples.base
           ["output"] {[Examples.base +:+ "/Rusty_Sword"]}).
  - intros w url response w' items href text Hget Hcontent Hin _.
    unfold Examples.unreachable_site in Hget.
    destruct (Str.startswith url Examples.listing_url); [| discriminate].
    injection Hget as <- _. cbn in Hcontent. injection Hcontent as <-.
    apply list_elem_of_singleton in Hin. injection Hin as -> _.
    by apply elem_of_singleton.
  - vm_compute. lia.
Defined.
